(** * OOSigGen MEX kernels: step resampling and piecewise-polynomial evaluation

    Shallow embedding of the two MEX gateway functions

    - [src/oosiggen/non_uniform_resample_fast.cpp]
      ([y_i = nonUniformResampleFast(x, y, x_i)]) and
    - [src/oosiggen/ppval_fast_core.cpp]
      ([v = ppvalFastCore(breaks, coefs, xx)]),

    followed by the properties of their lookup-and-evaluate loops. *)

From Stdlib Require Import String List ZArith Bool Lia QArith PrimFloat.
From Equations Require Import Equations.
Import ListNotations.

Local Open Scope Z_scope.

(** ** Scalars

    Both kernels work on C [double]s and use only [<=], [<], [>], [-], [*]
    and [+] on them.  The embedding is parametric in the scalar type: the
    arithmetic is left uninterpreted, so that theorems about evaluation
    order hold for IEEE arithmetic as they do for exact arithmetic. *)

Class DoubleOps (double : Type) : Type := {
  d_zero : double;                       (* the literal 0.0 *)
  d_add : double -> double -> double;    (* a + b *)
  d_sub : double -> double -> double;    (* a - b *)
  d_mul : double -> double -> double;    (* a * b *)
  d_le : double -> double -> bool;       (* a <= b *)
  d_lt : double -> double -> bool;       (* a < b, the comparison of std::lower_bound *)
  d_gt : double -> double -> bool        (* a > b *)
}.

(** The comparisons of real numbers: a total preorder of which [<] and [>]
    are the strict parts.  IEEE doubles satisfy these laws away from NaN
    only, so they are assumed only by theorems whose own hypotheses leave
    no NaN in; the other theorems ask for what they need of the values at
    hand ([transitive_on], [compares_with] below), or for nothing.
    The product is commutative (as is the IEEE product). *)

Class RealOrder (double : Type) `{DoubleOps double} : Prop := {
  d_le_total : forall a b, d_le a b = true \/ d_le b a = true;
  d_le_trans : forall a b c, d_le a b = true -> d_le b c = true -> d_le a c = true;
  d_lt_le : forall a b, d_lt a b = negb (d_le b a);
  d_gt_lt : forall a b, d_gt a b = d_lt b a;
  d_mul_comm : forall a b, d_mul a b = d_mul b a
}.

(** IEEE 754 binary64, the type the code runs on. *)

#[export] Instance float_ops : DoubleOps float := {
  d_zero := 0%float;
  d_add := PrimFloat.add;
  d_sub := PrimFloat.sub;
  d_mul := PrimFloat.mul;
  d_le := PrimFloat.leb;
  d_lt := PrimFloat.ltb;
  d_gt := fun a b => PrimFloat.ltb b a
}.

(** Exact rationals, an instance with the laws of the reals. *)

#[export] Instance Q_ops : DoubleOps Q := {
  d_zero := 0%Q;
  d_add := Qplus;
  d_sub := Qminus;
  d_mul := Qmult;
  d_le := Qle_bool;
  d_lt := fun a b => negb (Qle_bool b a);
  d_gt := fun a b => negb (Qle_bool a b)
}.

(** ** Outcomes of a MEX call *)

Inductive outcome (A : Type) : Type :=
| Done (a : A)            (* the call returns normally *)
| MexErr (msg : string)   (* mexErrMsgTxt: the call is aborted with an error *)
| OutOfBounds.            (* a read outside an input buffer *)

Arguments Done {A} a.
Arguments MexErr {A} msg.
Arguments OutOfBounds {A}.

Definition bind {A B : Type} (m : outcome A) (k : A -> outcome B) : outcome B :=
  match m with
  | Done a => k a
  | MexErr msg => MexErr msg
  | OutOfBounds => OutOfBounds
  end.

Notation "x <- m ;; k" := (bind m (fun x => k))
  (at level 61, m at next level, right associativity).
Notation "' pat <- m ;; k" := (bind m (fun x => match x with pat => k end))
  (at level 61, pat pattern, m at next level, right associativity).

(** [size_t] is modelled by [Z]; arithmetic that can leave the range wraps
    modulo [2^64]. *)

Definition SIZE_MAX : Z := 2 ^ 64 - 1.

Definition size_t (z : Z) : Z := z mod 2 ^ 64.

(** [a[i]] for a buffer of [length a] elements. *)

Definition read {A : Type} (a : list A) (i : Z) : outcome A :=
  if (0 <=? i) && (i <? Z.of_nat (length a)) then
    match nth_error a (Z.to_nat i) with
    | Some v => Done v
    | None => OutOfBounds
    end
  else OutOfBounds.

(** The axis precondition of both kernels: adjacent entries never decrease. *)

Fixpoint non_decreasingb {double : Type} `{DoubleOps double} (a : list double) : bool :=
  match a with
  | [] => true
  | h :: t =>
      match t with
      | [] => true
      | h' :: _ => d_le h h' && non_decreasingb t
      end
  end.

(** Buffers whose element count fits a [size_t]. *)

Definition addressable {A : Type} (a : list A) : Prop :=
  Z.of_nat (length a) <= SIZE_MAX.

(** Order facts that the theorems below ask of the values at hand, so that
    they can be checked on the data (also in binary64).  [<=] is transitive
    on the values of [vals]; on doubles it always is, NaN included. *)

Definition transitive_on {double : Type} `{DoubleOps double}
    (vals : list double) : Prop :=
  forall a b c, In a vals -> In b vals -> In c vals ->
    d_le a b = true -> d_le b c = true -> d_le a c = true.

Definition transitiveb {double : Type} `{DoubleOps double}
    (vals : list double) : bool :=
  forallb (fun a =>
    forallb (fun b =>
      forallb (fun c => implb (d_le a b && d_le b c) (d_le a c)) vals)
    vals) vals.

(** The three comparisons of the lookup agree on the query [q] and the
    break [a]: [a < q] exactly when not [q <= a], and [q > a] exactly when
    [a < q].  Two doubles compare so unless one of them is a NaN. *)

Definition compares_with {double : Type} `{DoubleOps double}
    (q a : double) : Prop :=
  d_lt a q = negb (d_le q a) /\ d_gt q a = d_lt a q.

(** * nonUniformResampleFast *)

Module NonUniformResample.
Section Kernel.

Context {double : Type} `{DoubleOps double}.

(** A sample [y[k]] is the pair [(y_r[k], y_i[k])]: the real and imaginary
    buffers of one mxArray hold the same number of elements (for a real
    [y] the second buffer is the scratch array of [x_length] doubles). *)

Definition sample : Type := (double * double)%type.

(** [while (ref_idx < x_length && x[ref_idx] <= xi[resamp_idx]) ref_idx++;]
    The increment is guarded by [ref_idx < x_length], so it cannot wrap.
    [fuel] bounds the number of iterations. *)

Fixpoint advance (fuel : nat) (x : list double) (q : double) (ref_idx : Z)
  : outcome Z :=
  match fuel with
  | O => Done ref_idx
  | S fuel' =>
      if ref_idx <? Z.of_nat (length x) then
        a <- read x ref_idx ;;
        if d_le a q then advance fuel' x q (ref_idx + 1) else Done ref_idx
      else Done ref_idx
  end.

(** One iteration of the [for] loop: the cursor [ref_idx] is declared
    outside the loop and is carried from one resample point to the next.
    Returns the cursor left behind and the output sample. *)

Definition resample_point (x : list double) (y : list sample) (ref_idx : Z)
    (q : double) : outcome (Z * sample) :=
  ref_idx <- advance (Z.to_nat (Z.of_nat (length x) - ref_idx)) x q ref_idx ;;
  if ref_idx =? 0 then
    Done (ref_idx, (d_zero, d_zero))
  else
    let ref_idx := ref_idx - 1 in
    v <- read y ref_idx ;;
    Done (ref_idx, v).

(** [for (resamp_idx = 0; resamp_idx < xi_length; ++resamp_idx)] *)

Fixpoint resample (x : list double) (y : list sample) (ref_idx : Z)
    (xi : list double) : outcome (list sample) :=
  match xi with
  | [] => Done []
  | q :: rest =>
      '(ref_idx', v) <- resample_point x y ref_idx q ;;
      out <- resample x y ref_idx' rest ;;
      Done (v :: out)
  end.

(** The gateway: the length check, then the loop with [ref_idx = 0]. *)

Definition mexFunction (x : list double) (y : list sample) (xi : list double)
  : outcome (list sample) :=
  if negb (Nat.eqb (length x) (length y)) then
    MexErr "x length does not match y length."
  else resample x y 0 xi.

(** The cursor after the resample points [xi] have been processed. *)

Fixpoint cursor_after (x : list double) (y : list sample) (ref_idx : Z)
    (xi : list double) : outcome Z :=
  match xi with
  | [] => Done ref_idx
  | q :: rest =>
      '(ref_idx', _) <- resample_point x y ref_idx q ;;
      cursor_after x y ref_idx' rest
  end.

(** Convention A of the specification. *)

Definition greatest_le (x : list double) (q : double) (j : Z) : Prop :=
  (exists a, read x j = Done a /\ d_le a q = true) /\
  (forall k a, read x k = Done a -> d_le a q = true -> k <= j).

Definition before_all (x : list double) (q : double) : Prop :=
  forall k a, read x k = Done a -> d_lt q a = true.

(** What the cursor relies on: the axis entries it has passed are [<= q]. *)

Definition below (x : list double) (ref_idx : Z) (q : double) : Prop :=
  forall k a, k < ref_idx -> read x k = Done a -> d_le a q = true.

End Kernel.

Arguments sample double : clear implicits.

End NonUniformResample.

(** * ppvalFastCore *)

Module PpvalFastCore.
Section Kernel.

Context {double : Type} `{DoubleOps double}.

(** [std::lower_bound(&a[first], &a[first + len], val)] of <algorithm>: the
    halving search on the distance [len], comparing with [operator<].
    Positions are offsets from [&a[0]]. *)

Equations? lower_bound_loop (a : list double) (val : double) (first len : nat)
  : outcome nat by wf len lt :=
  lower_bound_loop a val first O := Done first;
  lower_bound_loop a val first (S n)
    with read a (Z.of_nat (first + Nat.div2 (S n))) => {
    | Done m with d_lt m val => {
        | true :=
            lower_bound_loop a val (first + Nat.div2 (S n) + 1)
                             (S n - Nat.div2 (S n) - 1);
        | false := lower_bound_loop a val first (Nat.div2 (S n)) };
    | MexErr msg := MexErr msg;
    | OutOfBounds := OutOfBounds }.
Proof.
  all: destruct n as [| n']; simpl; try lia;
    pose proof (Nat.le_div2_diag_l n'); destruct (Nat.div2 n'); lia.
Qed.

Definition lower_bound (a : list double) (val : double) : outcome nat :=
  lower_bound_loop a val 0 (length a).

(** "Find the correct bin": the three-way choice of [lookup_idx]. *)

Definition find_bin (breaks : list double) (x : double) : outcome Z :=
  let num_breaks := Z.of_nat (length breaks) in
  b0 <- read breaks 0 ;;
  if d_le x b0 then
    Done 0
  else
    bl <- read breaks (size_t (num_breaks - 1)) ;;
    if d_gt x bl then
      Done (size_t (num_breaks - 1))
    else
      it <- lower_bound breaks x ;;
      Done (size_t (Z.of_nat it - 1)).

(** The coefficient loop,
    [for (coef_idx = 1; coef_idx < order; ++coef_idx)], run for [n] more
    iterations with the accumulator [v] (the slot [v[out_idx]]). *)

Fixpoint horner_loop (coefs : list double) (num_polynomials lookup_idx : Z)
    (delta_x : double) (n : nat) (coef_idx : Z) (v : double) : outcome double :=
  match n with
  | O => Done v
  | S n' =>
      c <- read coefs (size_t (lookup_idx + size_t (coef_idx * num_polynomials))) ;;
      horner_loop coefs num_polynomials lookup_idx delta_x n' (coef_idx + 1)
                  (d_add (d_mul delta_x v) c)
  end.

(** The body of the outer loop for one input value [x = xx[out_idx]]. *)

Definition eval_point (breaks coefs : list double) (num_polynomials order : Z)
    (x : double) : outcome double :=
  lookup_idx <- find_bin breaks x ;;
  b <- read breaks lookup_idx ;;
  let delta_x := d_sub x b in
  v <- read coefs lookup_idx ;;
  horner_loop coefs num_polynomials lookup_idx delta_x
              (Z.to_nat (order - 1)) 1 v.

(** [for (out_idx = 0; out_idx < num_values; ++out_idx)] *)

Fixpoint evaluate (breaks coefs : list double) (num_polynomials order : Z)
    (xx : list double) : outcome (list double) :=
  match xx with
  | [] => Done []
  | x :: rest =>
      v <- eval_point breaks coefs num_polynomials order x ;;
      out <- evaluate breaks coefs num_polynomials order rest ;;
      Done (v :: out)
  end.

(** The gateway.  [coefs] is the data of an mxArray with [num_polynomials]
    rows (mxGetM) and [order] columns (mxGetN), stored column by column. *)

Definition mexFunction (breaks : list double) (num_polynomials order : Z)
    (coefs : list double) (xx : list double) : outcome (list double) :=
  let num_breaks := Z.of_nat (length breaks) in
  if negb (Z.of_nat (length coefs) =? size_t (num_polynomials * order)) then
    MexErr "coefs must be a real matrix of doubles."
  else if negb (num_polynomials =? size_t (num_breaks - 1)) then
    MexErr "Number of polynomials is not consistent with number of breaks."
  else evaluate breaks coefs num_polynomials order xx.

(** MATLAB's storage of a matrix given by its rows: column after column. *)

Definition column (table : list (list double)) (c : nat) : list double :=
  map (fun row => nth c row d_zero) table.

Definition col_major (table : list (list double)) (order : nat) : list double :=
  concat (map (column table) (seq 0 order)).

(** The specification's reading of the evaluator (section 4.1, convention B,
    and section 4.3, step 3). *)

Definition interval_spec (Axis : list double) (q : double) (i : Z) : Prop :=
  exists a0, read Axis 0 = Done a0 /\
    if d_le q a0 then i = 0
    else exists lo hi, read Axis i = Done lo /\ read Axis (i + 1) = Done hi /\
                       d_lt lo q = true /\ d_le q hi = true.

Definition horner_spec (row : list double) (d : double) : double :=
  match row with
  | [] => d_zero
  | c0 :: cs => fold_left (fun acc c => d_add (d_mul acc d) c) cs c0
  end.

End Kernel.
End PpvalFastCore.

(** * The gateways with their argument checks

    What a gateway observes of an [mxArray] through the MEX interface: the
    number of rows, the number of columns (for more than two dimensions the
    product of all but the first), the element count, the class tests and
    the data.  MATLAB passes no null argument, so the [== NULL] tests of
    the gateways never fire; console output ([mexPrintf]) and a failing
    allocation of the result are outside the model. *)

Record mxArray (double : Type) : Type := {
  mxGetM : Z;
  mxGetN : Z;
  mxGetNumberOfElements : Z;
  mxIsDouble : bool;
  mxIsComplex : bool;
  mxGetPr : list double;
  mxGetPi : list double
}.

Arguments mxGetM {double} _.
Arguments mxGetN {double} _.
Arguments mxGetNumberOfElements {double} _.
Arguments mxIsDouble {double} _.
Arguments mxIsComplex {double} _.
Arguments mxGetPr {double} _.
Arguments mxGetPi {double} _.

(** The invariants of the interface: the element count is rows times
    columns and fits a [size_t], the real part holds that many doubles, so
    does the imaginary part of a complex array, and the number of rows
    stays below the largest [size_t] (MATLAB bounds every dimension well
    below it). *)

Definition mx_wf {double : Type} (a : mxArray double) : Prop :=
  0 <= mxGetM a /\ 0 <= mxGetN a /\
  mxGetNumberOfElements a = mxGetM a * mxGetN a /\
  mxGetNumberOfElements a <= SIZE_MAX /\
  Z.of_nat (length (mxGetPr a)) = mxGetNumberOfElements a /\
  (mxIsComplex a = true ->
   Z.of_nat (length (mxGetPi a)) = mxGetNumberOfElements a) /\
  mxGetM a < SIZE_MAX.

(** [mxCreateDoubleMatrix(m, 1, mxCOMPLEX or mxREAL)], filled by the loop. *)

Definition mxCreateDoubleColumn {double : Type} (m : Z) (complex : bool)
    (pr pi : list double) : mxArray double :=
  {| mxGetM := m; mxGetN := 1; mxGetNumberOfElements := m;
     mxIsDouble := true; mxIsComplex := complex;
     mxGetPr := pr; mxGetPi := if complex then pi else [] |}.

(** [mxMalloc(n * sizeof(double))] hands out [n] doubles of unspecified
    content; an allocator is a function from the count to that content. *)

Definition allocator_ok {double : Type} (mxMalloc : Z -> list double) : Prop :=
  forall n, 0 <= n -> Z.of_nat (length (mxMalloc n)) = n.

Module NonUniformResampleGateway.
Section Gateway.

Context {double : Type} `{DoubleOps double}.

(** [mexFunction] of non_uniform_resample_fast.cpp, all of it: [prhs] holds
    the [nrhs] arguments; the result is [plhs[0]]. *)

Definition mexFunction (mxMalloc : Z -> list double)
    (prhs : list (mxArray double)) : outcome (mxArray double) :=
  match prhs with
  | [p0; p1; p2] =>
      let x_length := mxGetM p0 in
      if negb (mxIsDouble p0) || mxIsComplex p0
         || negb (mxGetNumberOfElements p0 =? x_length) then
        MexErr "x must be a real column array of doubles."
      else
        let y_length := mxGetM p1 in
        if negb (mxIsDouble p1)
           || negb (mxGetNumberOfElements p1 =? y_length) then
          MexErr "y must be a column array of doubles."
        else if negb (x_length =? y_length) then
          MexErr "x length does not match y length."
        else
          let is_complex := mxIsComplex p1 in
          let xi_length := mxGetM p2 in
          if negb (mxIsDouble p2) || mxIsComplex p2
             || negb (mxGetNumberOfElements p2 =? xi_length) then
            MexErr "xi must be a real column array of doubles."
          else
            let x := mxGetPr p0 in
            let y_r := mxGetPr p1 in
            let y_i := if is_complex then mxGetPi p1 else mxMalloc x_length in
            let xi := mxGetPr p2 in
            yi <- NonUniformResample.resample x (combine y_r y_i) 0 xi ;;
            Done (mxCreateDoubleColumn xi_length is_complex
                                       (map fst yi) (map snd yi))
  | _ => MexErr "Incorrect number of input arguments (three required)."
  end.

End Gateway.
End NonUniformResampleGateway.

Module PpvalFastCoreGateway.
Section Gateway.

Context {double : Type} `{DoubleOps double}.

(** [mexFunction] of ppval_fast_core.cpp, all of it. *)

Definition mexFunction (prhs : list (mxArray double))
  : outcome (mxArray double) :=
  match prhs with
  | [p0; p1; p2] =>
      let num_breaks := mxGetN p0 in
      if negb (mxIsDouble p0) || mxIsComplex p0
         || negb (mxGetNumberOfElements p0 =? num_breaks) then
        MexErr "breaks must be a real row array of doubles."
      else
        let num_polynomials := mxGetM p1 in
        let order := mxGetN p1 in
        if negb (mxIsDouble p1) || mxIsComplex p1
           || negb (mxGetNumberOfElements p1
                    =? size_t (num_polynomials * order)) then
          MexErr "coefs must be a real matrix of doubles."
        else if negb (num_polynomials =? size_t (num_breaks - 1)) then
          MexErr "Number of polynomials is not consistent with number of breaks."
        else
          let num_values := mxGetM p2 in
          if negb (mxIsDouble p2) || mxIsComplex p2
             || negb (mxGetNumberOfElements p2 =? num_values) then
            MexErr "xx must be a real column array of doubles."
          else
            v <- PpvalFastCore.evaluate (mxGetPr p0) (mxGetPr p1)
                                        num_polynomials order (mxGetPr p2) ;;
            Done (mxCreateDoubleColumn num_values false v [])
  | _ => MexErr "Incorrect number of input arguments (three required)."
  end.

End Gateway.
End PpvalFastCoreGateway.

(** A real array of doubles with [m] rows and [n] columns. *)

Definition mx_real {double : Type} (m n : Z) (pr : list double)
  : mxArray double :=
  {| mxGetM := m; mxGetN := n; mxGetNumberOfElements := m * n;
     mxIsDouble := true; mxIsComplex := false;
     mxGetPr := pr; mxGetPi := [] |}.

(** An allocator that hands out buffers filled with one value. *)

Definition filled {double : Type} (d : double) (n : Z) : list double :=
  repeat d (Z.to_nat n).

(** * The boundary scenarios of the specification

    Axis [0, 1, 2] with samples [(1,0), (2,0), (3,0)], and with the linear
    table [[1, 0], [1, 1]]; once in binary64 and once in exact rationals. *)

Definition axis_f : list float := [0; 1; 2]%float.

Definition samples_f : list (NonUniformResample.sample float) :=
  [(1, 0); (2, 0); (3, 0)]%float.

Definition table_f : list (list float) := [[1; 0]; [1; 1]]%float.

(** Comparison of two binary64 output slots. *)

Definition slot_eqb (a b : option (NonUniformResample.sample float)) : bool :=
  match a, b with
  | Some (r1, i1), Some (r2, i2) => PrimFloat.eqb r1 r2 && PrimFloat.eqb i1 i2
  | None, None => true
  | _, _ => false
  end.

Definition axis_q : list Q := [0; 1; 2]%Q.

Definition samples_q : list (NonUniformResample.sample Q) :=
  [(1, 0); (2, 0); (3, 0)]%Q.

Definition table_q : list (list Q) := [[1; 0]; [1; 1]]%Q.

(** * Properties *)

(** ** Buffers and outcomes *)

Section ReadFacts.

Context {A : Type}.

Lemma read_Done (a : list A) (i : Z) (v : A) :
  read a i = Done v ->
  0 <= i < Z.of_nat (length a) /\ nth_error a (Z.to_nat i) = Some v.
Proof.
  unfold read.
  destruct ((0 <=? i) && (i <? Z.of_nat (length a))) eqn:Hin; [| discriminate].
  apply andb_true_iff in Hin. destruct Hin as [H0 H1].
  apply Z.leb_le in H0. apply Z.ltb_lt in H1.
  destruct (nth_error a (Z.to_nat i)) eqn:Hn; [| discriminate].
  intros [= ->]. split; [lia | reflexivity].
Qed.

Lemma read_in_bounds (a : list A) (i : Z) :
  0 <= i < Z.of_nat (length a) -> exists v, read a i = Done v.
Proof.
  intros [H0 H1]. unfold read.
  apply Z.leb_le in H0 as H0b. apply Z.ltb_lt in H1 as H1b.
  rewrite H0b, H1b. simpl.
  destruct (nth_error a (Z.to_nat i)) eqn:Hn; [eauto |].
  apply nth_error_None in Hn. lia.
Qed.

Lemma read_beyond (a : list A) (i : Z) :
  Z.of_nat (length a) <= i -> read a i = OutOfBounds.
Proof.
  intros Hi. unfold read.
  destruct (i <? Z.of_nat (length a)) eqn:Hlt.
  - apply Z.ltb_lt in Hlt. lia.
  - rewrite andb_false_r. reflexivity.
Qed.

Lemma read_nth_error (a : list A) (k : nat) (v : A) :
  nth_error a k = Some v -> read a (Z.of_nat k) = Done v.
Proof.
  intros Hn. unfold read.
  assert (Hlt : (k < length a)%nat) by (apply nth_error_Some; congruence).
  replace (0 <=? Z.of_nat k) with true by (symmetry; apply Z.leb_le; lia).
  replace (Z.of_nat k <? Z.of_nat (length a)) with true
    by (symmetry; apply Z.ltb_lt; lia).
  simpl. rewrite Nat2Z.id, Hn. reflexivity.
Qed.

Lemma read_cons (h : A) (t : list A) (i : Z) :
  read (h :: t) i = if i =? 0 then Done h else read t (i - 1).
Proof.
  destruct (Z.eqb_spec i 0) as [-> | Hne]; [reflexivity |].
  destruct (Z_lt_le_dec i 0) as [Hneg | Hpos].
  - unfold read.
    replace (0 <=? i) with false by (symmetry; apply Z.leb_gt; lia).
    replace (0 <=? i - 1) with false by (symmetry; apply Z.leb_gt; lia).
    reflexivity.
  - destruct (Z_lt_le_dec (i - 1) (Z.of_nat (length t))) as [Hin | Hout].
    + destruct (read_in_bounds t (i - 1)) as [v Hv]; [lia |].
      rewrite Hv. apply read_Done in Hv. destruct Hv as [_ Hv].
      replace i with (Z.of_nat (S (Z.to_nat (i - 1)))) by lia.
      apply read_nth_error. simpl. exact Hv.
    + rewrite (read_beyond t) by lia. apply read_beyond. simpl length. lia.
Qed.

Lemma read_functional (a : list A) (i : Z) (v w : A) :
  read a i = Done v -> read a i = Done w -> v = w.
Proof. congruence. Qed.

End ReadFacts.

Lemma bind_Done {A B : Type} (m : outcome A) (k : A -> outcome B) (b : B) :
  bind m k = Done b -> exists a, m = Done a /\ k a = Done b.
Proof. destruct m; simpl; intros Hk; try discriminate. eauto. Qed.

(** ** The resampling loop, without any assumption on the order of the data *)

Section ResampleLoop.

Import NonUniformResample.

Context {double : Type} {ops : DoubleOps double}.

Implicit Types (x xi : list double) (y : list (sample double)) (q : double).

(** The inner [while] loop stops at the first position from the cursor on
    whose axis entry is not [<= q], or at [x_length]. *)

Lemma advance_spec (fuel : nat) x q (c : Z) :
  0 <= c <= Z.of_nat (length x) ->
  Z.of_nat (length x) - c <= Z.of_nat fuel ->
  exists r, advance fuel x q c = Done r /\
    c <= r <= Z.of_nat (length x) /\
    (forall k a, c <= k < r -> read x k = Done a -> d_le a q = true) /\
    (forall a, read x r = Done a -> d_le a q = false).
Proof.
  revert c. induction fuel as [| fuel IH]; intros c Hc Hfuel.
  - exists c. simpl. split; [reflexivity |]. split; [lia |]. split.
    + intros k a Hk. lia.
    + intros a Ha. apply read_Done in Ha. lia.
  - simpl. destruct (c <? Z.of_nat (length x)) eqn:Hlt.
    + apply Z.ltb_lt in Hlt.
      destruct (read_in_bounds x c) as [a Ha]; [lia |].
      rewrite Ha. simpl. destruct (d_le a q) eqn:Hle.
      * destruct (IH (c + 1)) as (r & Hr & Hb & Hscan & Hstop); [lia | lia |].
        exists r. split; [exact Hr |]. split; [lia |]. split; [| exact Hstop].
        intros k b Hk Hb'. destruct (Z.eq_dec k c) as [-> | Hne].
        -- congruence.
        -- apply (Hscan k); [lia | exact Hb'].
      * exists c. split; [reflexivity |]. split; [lia |]. split.
        -- intros k b Hk. lia.
        -- intros b Hb. congruence.
    + apply Z.ltb_ge in Hlt. exists c.
      split; [reflexivity |]. split; [lia |]. split.
      * intros k a Hk. lia.
      * intros a Ha. apply read_Done in Ha. lia.
Qed.

(** One resample point: where the scan stopped decides the output. *)

Lemma resample_point_spec x y q (c : Z) :
  length y = length x ->
  0 <= c <= Z.of_nat (length x) ->
  exists r c' v,
    resample_point x y c q = Done (c', v) /\
    c <= r <= Z.of_nat (length x) /\
    (forall k a, c <= k < r -> read x k = Done a -> d_le a q = true) /\
    (forall a, read x r = Done a -> d_le a q = false) /\
    ((r = 0 /\ c' = 0 /\ v = (d_zero, d_zero)) \/
     (0 < r /\ c' = r - 1 /\ read y c' = Done v)).
Proof.
  intros Hlen Hc.
  destruct (advance_spec (Z.to_nat (Z.of_nat (length x) - c)) x q c)
    as (r & Hr & Hb & Hscan & Hstop); [lia | lia |].
  unfold resample_point. rewrite Hr. simpl.
  destruct (Z.eqb_spec r 0) as [H0 | Hne].
  - exists r, r, (d_zero, d_zero).
    split; [reflexivity |]. split; [lia |]. split; [exact Hscan |].
    split; [exact Hstop |]. left. auto.
  - destruct (read_in_bounds y (r - 1)) as [v Hv]; [rewrite Hlen; lia |].
    rewrite Hv. simpl. exists r, (r - 1), v.
    split; [reflexivity |]. split; [lia |]. split; [exact Hscan |].
    split; [exact Hstop |]. right. split; [lia |]. auto.
Qed.

Lemma resample_point_cursor x y q (c c' : Z) (v : sample double) :
  length y = length x ->
  0 <= c <= Z.of_nat (length x) ->
  resample_point x y c q = Done (c', v) ->
  0 <= c' <= Z.of_nat (length x).
Proof.
  intros Hlen Hc Hp.
  destruct (resample_point_spec x y q c Hlen Hc)
    as (r & c2 & v2 & Hp2 & Hr & _ & _ & Hcase).
  rewrite Hp in Hp2. injection Hp2 as <- <-.
  destruct Hcase as [(? & ? & ?) | (? & ? & ?)]; lia.
Qed.

(** The batch is never aborted: every resample point gets an output. *)

Lemma resample_total x y xi (c : Z) :
  length y = length x ->
  0 <= c <= Z.of_nat (length x) ->
  exists out, resample x y c xi = Done out /\ length out = length xi.
Proof.
  intros Hlen. revert c. induction xi as [| q rest IH]; intros c Hc.
  - exists []. split; reflexivity.
  - destruct (resample_point_spec x y q c Hlen Hc)
      as (r & c' & v & Hp & _).
    pose proof (resample_point_cursor x y q c c' v Hlen Hc Hp) as Hc'.
    destruct (IH c' Hc') as (out & Hout & Hl).
    exists (v :: out). simpl. rewrite Hp. simpl. rewrite Hout. simpl.
    split; [reflexivity | congruence].
Qed.

(** Output [i] is the output of one loop iteration, started from the
    cursor that the earlier resample points left behind. *)

Lemma resample_at x y xi (c : Z) (out : list (sample double)) (i : nat) q :
  resample x y c xi = Done out ->
  nth_error xi i = Some q ->
  exists ci c' v,
    cursor_after x y c (firstn i xi) = Done ci /\
    resample_point x y ci q = Done (c', v) /\
    nth_error out i = Some v.
Proof.
  revert c out i. induction xi as [| q0 rest IH]; intros c out i Hrun Hq.
  - destruct i; discriminate.
  - simpl in Hrun. apply bind_Done in Hrun. destruct Hrun as ([c1 v1] & Hp & Hrun).
    apply bind_Done in Hrun. destruct Hrun as (out' & Hrest & Hout).
    injection Hout as <-.
    destruct i as [| i]; simpl in Hq.
    + injection Hq as ->. exists c, c1, v1. simpl. auto.
    + destruct (IH c1 out' i Hrest Hq) as (ci & c' & v & Hcur & Hpt & Hn).
      exists ci, c', v. simpl. rewrite Hp. simpl. auto.
Qed.

Lemma resample_firstn x y xi (c : Z) (out : list (sample double)) (n : nat) :
  resample x y c xi = Done out ->
  resample x y c (firstn n xi) = Done (firstn n out).
Proof.
  revert c out n. induction xi as [| q0 rest IH]; intros c out n Hrun.
  - simpl in Hrun. injection Hrun as <-. destruct n; reflexivity.
  - simpl in Hrun. apply bind_Done in Hrun. destruct Hrun as ([c1 v1] & Hp & Hrun).
    apply bind_Done in Hrun. destruct Hrun as (out' & Hrest & Hout).
    injection Hout as <-. destruct n as [| n]; [reflexivity |].
    simpl. rewrite Hp. simpl. rewrite (IH c1 out' n Hrest). reflexivity.
Qed.

Lemma cursor_after_bounds x y xi (c ci : Z) :
  length y = length x ->
  0 <= c <= Z.of_nat (length x) ->
  cursor_after x y c xi = Done ci ->
  0 <= ci <= Z.of_nat (length x).
Proof.
  intros Hlen. revert c. induction xi as [| q rest IH]; intros c Hc Hcur.
  - simpl in Hcur. injection Hcur as <-. exact Hc.
  - simpl in Hcur. apply bind_Done in Hcur. destruct Hcur as ([c1 v1] & Hp & Hcur).
    apply (IH c1); [| exact Hcur].
    eapply resample_point_cursor; eauto.
Qed.

End ResampleLoop.

(** ** Ordered data *)

Section Ordered.

Context {double : Type} {ops : DoubleOps double} {ord : RealOrder double}.

Lemma d_le_refl (a : double) : d_le a a = true.
Proof. destruct (d_le_total a a); assumption. Qed.

Lemma d_le_false_trans (a b c : double) :
  d_le a c = false -> d_le a b = true -> d_le b c = false.
Proof.
  intros Hac Hab. destruct (d_le b c) eqn:Hbc; [| reflexivity].
  rewrite (d_le_trans a b c Hab Hbc) in Hac. discriminate.
Qed.

Lemma d_le_false_flip (a b : double) : d_le a b = false -> d_le b a = true.
Proof. intros Hab. destruct (d_le_total a b); congruence. Qed.

Lemma d_lt_below (a b val : double) :
  d_lt b val = true -> d_le a b = true -> d_lt a val = true.
Proof.
  rewrite !d_lt_le. intros Hb Hab. apply negb_true_iff in Hb.
  destruct (d_le val a) eqn:Hva; [| reflexivity].
  rewrite (d_le_trans val a b Hva Hab) in Hb. discriminate.
Qed.

Lemma d_lt_above (a b val : double) :
  d_lt a val = false -> d_le a b = true -> d_lt b val = false.
Proof.
  rewrite !d_lt_le. intros Ha Hab. apply negb_false_iff in Ha.
  rewrite (d_le_trans val a b Ha Hab). reflexivity.
Qed.

Lemma non_decreasingb_tail (h : double) (t : list double) :
  non_decreasingb (h :: t) = true -> non_decreasingb t = true.
Proof.
  destruct t as [| h' t']; [reflexivity |].
  intros Hs. change (d_le h h' && non_decreasingb (h' :: t') = true) in Hs.
  apply andb_true_iff in Hs. tauto.
Qed.

Lemma non_decreasingb_head (t : list double) : forall (h : double),
  non_decreasingb (h :: t) = true ->
  forall j b, read t j = Done b -> d_le h b = true.
Proof.
  induction t as [| h' t' IH]; intros h Hs j b Hb.
  - apply read_Done in Hb. simpl in Hb. lia.
  - change (d_le h h' && non_decreasingb (h' :: t') = true) in Hs.
    apply andb_true_iff in Hs. destruct Hs as [Hh Hs].
    rewrite read_cons in Hb. destruct (j =? 0).
    + injection Hb as <-. exact Hh.
    + apply (d_le_trans h h' b Hh). exact (IH h' Hs _ _ Hb).
Qed.

(** Adjacent order gives the order between any two positions. *)

Lemma non_decreasingb_sorted (a : list double) :
  non_decreasingb a = true ->
  forall i j ai aj, i <= j ->
    read a i = Done ai -> read a j = Done aj -> d_le ai aj = true.
Proof.
  induction a as [| h t IH]; intros Hs i j ai aj Hij Hi Hj.
  - apply read_Done in Hi. simpl in Hi. lia.
  - pose proof (read_Done _ _ _ Hi) as [Hib _].
    rewrite read_cons in Hi, Hj.
    destruct (Z.eqb_spec i 0) as [-> | Hi0].
    + injection Hi as <-. destruct (Z.eqb_spec j 0) as [-> | Hj0].
      * injection Hj as <-. apply d_le_refl.
      * exact (non_decreasingb_head t h Hs _ _ Hj).
    + destruct (Z.eqb_spec j 0) as [-> | Hj0]; [lia |].
      apply (IH (non_decreasingb_tail h t Hs) (i - 1) (j - 1)); [lia | auto | auto].
Qed.

End Ordered.

(** ** The resampling loop on a non-decreasing axis *)

Section ResampleOrdered.

Import NonUniformResample.

Context {double : Type} {ops : DoubleOps double} {ord : RealOrder double}.

Implicit Types (x xi : list double) (y : list (sample double)) (q m : double).

Lemma below_zero x q : below x 0 q.
Proof. intros k a Hk Ha. apply read_Done in Ha. lia. Qed.

(** The cursor invariant survives a resample point that does not exceed
    the bound [m]; the axis need not be ordered for this. *)

Lemma resample_point_below x y q m (c c' : Z) (v : sample double) :
  length y = length x ->
  0 <= c <= Z.of_nat (length x) ->
  below x c m -> d_le q m = true ->
  resample_point x y c q = Done (c', v) ->
  below x c' m.
Proof.
  intros Hlen Hc Hbelow Hqm Hp.
  destruct (resample_point_spec x y q c Hlen Hc)
    as (r & c2 & v2 & Hp2 & Hr & Hscan & _ & Hcase).
  rewrite Hp in Hp2. injection Hp2 as <- <-.
  intros k a Hk Ha.
  destruct (Z_lt_le_dec k c) as [Hkc | Hkc].
  - exact (Hbelow k a Hkc Ha).
  - apply (d_le_trans a q m); [| exact Hqm].
    apply (Hscan k a); [| exact Ha].
    destruct Hcase as [(? & ? & ?) | (? & ? & ?)]; lia.
Qed.

Lemma cursor_after_below x y xi m : forall (c ci : Z),
  length y = length x ->
  0 <= c <= Z.of_nat (length x) ->
  below x c m ->
  Forall (fun q' => d_le q' m = true) xi ->
  cursor_after x y c xi = Done ci ->
  below x ci m.
Proof.
  induction xi as [| q rest IH]; intros c ci Hlen Hc Hbelow Hall Hcur.
  - simpl in Hcur. injection Hcur as <-. exact Hbelow.
  - simpl in Hcur. apply bind_Done in Hcur. destruct Hcur as ([c1 v1] & Hp & Hcur).
    inversion Hall as [| ? ? Hq Hrest]; subst.
    apply (IH c1 ci Hlen); auto.
    + eapply resample_point_cursor; eauto.
    + eapply resample_point_below; eauto.
Qed.

(** Convention A at one resample point, for a cursor that has only passed
    entries [<= q]. *)

Lemma resample_point_sorted x y q (c : Z) :
  non_decreasingb x = true ->
  length y = length x ->
  0 <= c <= Z.of_nat (length x) ->
  below x c q ->
  exists c' v,
    resample_point x y c q = Done (c', v) /\
    ((before_all x q /\ v = (d_zero, d_zero)) \/
     (greatest_le x q c' /\ read y c' = Done v)).
Proof.
  intros Hs Hlen Hc Hbelow.
  destruct (resample_point_spec x y q c Hlen Hc)
    as (r & c' & v & Hp & Hr & Hscan & Hstop & Hcase).
  exists c', v. split; [exact Hp |].
  destruct Hcase as [(Hr0 & Hc0 & Hv) | (Hrpos & Hc' & Hv)].
  - left. split; [| exact Hv]. subst r.
    intros k a Ha. rewrite d_lt_le.
    pose proof (read_Done _ _ _ Ha) as [Hk _].
    destruct (read_in_bounds x 0) as [a0 Ha0]; [lia |].
    rewrite (d_le_false_trans a0 a q); [reflexivity | auto |].
    apply (non_decreasingb_sorted x Hs 0 k); auto; lia.
  - right. split; [| exact Hv]. split.
    + destruct (read_in_bounds x c') as [a Ha]; [lia |].
      exists a. split; [exact Ha |].
      destruct (Z_lt_le_dec c' c) as [Hlt | Hge].
      * exact (Hbelow c' a Hlt Ha).
      * apply (Hscan c' a); [lia | exact Ha].
    + intros k a Ha Hle.
      destruct (Z_lt_le_dec c' k) as [Hlt | Hge]; [| exact Hge].
      exfalso. pose proof (read_Done _ _ _ Ha) as [Hk _].
      destruct (read_in_bounds x r) as [ar Har]; [lia |].
      pose proof (Hstop ar Har) as Hfalse.
      assert (Hrk : d_le ar a = true)
        by (apply (non_decreasingb_sorted x Hs r k); auto; lia).
      rewrite (d_le_trans ar a q Hrk Hle) in Hfalse. discriminate.
Qed.

Lemma Forall_firstn_nth (A : Type) (P : A -> Prop) (l : list A) (i : nat) :
  (forall k a, (k < i)%nat -> nth_error l k = Some a -> P a) ->
  Forall P (firstn i l).
Proof.
  intros Hall. apply Forall_forall. intros a Hin.
  apply In_nth_error in Hin. destruct Hin as [k Hk].
  rewrite nth_error_firstn in Hk.
  destruct (k <? i)%nat eqn:Hki; [| discriminate].
  apply Nat.ltb_lt in Hki. eauto.
Qed.

(** Convention A at position [i] of a batch in which no earlier resample
    point exceeds the one at [i]. *)

Lemma resample_position x y xi (i : nat) q :
  non_decreasingb x = true ->
  length y = length x ->
  nth_error xi i = Some q ->
  (forall k q', (k < i)%nat -> nth_error xi k = Some q' -> d_le q' q = true) ->
  exists out v,
    mexFunction x y xi = Done out /\
    length out = length xi /\
    nth_error out i = Some v /\
    ((before_all x q /\ v = (d_zero, d_zero)) \/
     (exists j, greatest_le x q j /\ read y j = Done v)).
Proof.
  intros Hs Hlen Hq Hearlier.
  unfold mexFunction. rewrite <- Hlen, Nat.eqb_refl. simpl.
  destruct (resample_total x y xi 0 Hlen) as (out & Hrun & Hl); [lia |].
  destruct (resample_at x y xi 0 out i q Hrun Hq) as (ci & c' & v & Hcur & Hp & Hn).
  exists out, v. split; [exact Hrun |]. split; [exact Hl |]. split; [exact Hn |].
  assert (Hci : 0 <= ci <= Z.of_nat (length x))
    by (apply (cursor_after_bounds x y (firstn i xi) 0 ci Hlen); [lia | exact Hcur]).
  assert (Hbelow : below x ci q).
  { apply (cursor_after_below x y (firstn i xi) q 0 ci Hlen); auto.
    - lia.
    - apply below_zero.
    - apply Forall_firstn_nth. exact Hearlier. }
  destruct (resample_point_sorted x y q ci Hs Hlen Hci Hbelow)
    as (c2 & v2 & Hp2 & Hcase).
  rewrite Hp in Hp2. injection Hp2 as <- <-.
  destruct Hcase as [Hz | [Hg Hv]]; [left; exact Hz | right; eauto].
Qed.

End ResampleOrdered.

(** ** std::lower_bound on a non-decreasing array *)

Section LowerBound.

Import PpvalFastCore.

Context {double : Type} {ops : DoubleOps double} {ord : RealOrder double}.

Lemma lower_bound_loop_spec (a : list double) (val : double) (first len : nat) :
  non_decreasingb a = true ->
  (first + len <= length a)%nat ->
  (forall k ak, k < Z.of_nat first -> read a k = Done ak -> d_lt ak val = true) ->
  (forall k ak, Z.of_nat (first + len) <= k -> read a k = Done ak ->
                d_lt ak val = false) ->
  exists r, lower_bound_loop a val first len = Done r /\
    (first <= r <= first + len)%nat /\
    (forall k ak, k < Z.of_nat r -> read a k = Done ak -> d_lt ak val = true) /\
    (forall k ak, Z.of_nat r <= k -> read a k = Done ak -> d_lt ak val = false).
Proof.
  funelim (lower_bound_loop a val first len); intros Hs Hlen Hlow Hhigh;
    try (clear Heqcall; pose proof (Nat.lt_div2 (S n) (Nat.lt_0_succ n)) as Hhalf;
         set (half := Nat.div2 (S n)) in *; clearbody half).
  - exists first. split; [reflexivity |]. split; [lia |]. split; [exact Hlow |].
    intros k ak Hk. apply Hhigh. lia.
  - destruct (read_in_bounds a (Z.of_nat (first + half))) as [? ?];
      [lia | congruence].
  - destruct (read_in_bounds a (Z.of_nat (first + half))) as [? ?];
      [lia | congruence].
  - destruct H as (r & Hr & Hb & Hlt & Hge); auto.
    + lia.
    + intros k ak Hk Hak. apply (d_lt_below ak m val Heq).
      pose proof (read_Done _ _ _ Hak) as [Hk0 _].
      apply (non_decreasingb_sorted a Hs k (Z.of_nat (first + half))); auto; lia.
    + intros k ak Hk. apply Hhigh. lia.
    + exists r. split; [exact Hr |]. split; [lia |]. auto.
  - destruct H as (r & Hr & Hb & Hlt & Hge); auto.
    + lia.
    + intros k ak Hk Hak. apply (d_lt_above m ak val Heq).
      apply (non_decreasingb_sorted a Hs (Z.of_nat (first + half)) k); auto; lia.
    + exists r. split; [exact Hr |]. split; [lia |]. auto.
Qed.

(** On a non-decreasing array the search returns the number of entries
    that are [< val]. *)

Lemma lower_bound_spec (a : list double) (val : double) :
  non_decreasingb a = true ->
  exists r, lower_bound a val = Done r /\
    (r <= length a)%nat /\
    (forall k ak, k < Z.of_nat r -> read a k = Done ak -> d_lt ak val = true) /\
    (forall k ak, Z.of_nat r <= k -> read a k = Done ak -> d_lt ak val = false).
Proof.
  intros Hs. unfold lower_bound.
  destruct (lower_bound_loop_spec a val 0 (length a) Hs) as (r & Hr & Hb & Hrest).
  - lia.
  - intros k ak Hk Hak. apply read_Done in Hak. lia.
  - intros k ak Hk Hak. apply read_Done in Hak. lia.
  - exists r. split; [exact Hr |]. split; [lia | exact Hrest].
Qed.

End LowerBound.

(** ** The choice of the polynomial piece *)

Section FindBin.

Import PpvalFastCore.

Context {double : Type} {ops : DoubleOps double} {ord : RealOrder double}.

Lemma size_t_small (z : Z) : 0 <= z <= SIZE_MAX -> size_t z = z.
Proof. unfold size_t, SIZE_MAX. intros Hz. apply Z.mod_small. lia. Qed.

(** The three branches of the lookup on a non-decreasing, non-empty axis. *)

Lemma find_bin_cases (breaks : list double) (q : double) :
  non_decreasingb breaks = true ->
  breaks <> [] ->
  addressable breaks ->
  exists b0 bl,
    read breaks 0 = Done b0 /\
    read breaks (Z.of_nat (length breaks) - 1) = Done bl /\
    ((d_le q b0 = true /\ find_bin breaks q = Done 0) \/
     (d_le q b0 = false /\ d_le q bl = false /\
      find_bin breaks q = Done (Z.of_nat (length breaks) - 1)) \/
     (d_le q b0 = false /\ d_le q bl = true /\
      exists it : Z,
        find_bin breaks q = Done (it - 1) /\
        1 <= it <= Z.of_nat (length breaks) - 1 /\
        (forall k ak, k < it -> read breaks k = Done ak -> d_lt ak q = true) /\
        (forall k ak, it <= k -> read breaks k = Done ak -> d_lt ak q = false))).
Proof.
  intros Hs Hne Hfit.
  assert (Hlen : 1 <= Z.of_nat (length breaks))
    by (destruct breaks; [congruence | simpl length; lia]).
  unfold addressable in Hfit.
  destruct (read_in_bounds breaks 0) as [b0 Hb0]; [lia |].
  destruct (read_in_bounds breaks (Z.of_nat (length breaks) - 1)) as [bl Hbl]; [lia |].
  exists b0, bl. split; [exact Hb0 |]. split; [exact Hbl |].
  unfold find_bin. rewrite Hb0. simpl.
  destruct (d_le q b0) eqn:Hq0; [left; auto |].
  right. rewrite size_t_small by lia. rewrite Hbl. simpl.
  rewrite d_gt_lt, d_lt_le.
  destruct (d_le q bl) eqn:Hql; simpl; [right | left; auto].
  split; [reflexivity |]. split; [reflexivity |].
  destruct (lower_bound_spec breaks q Hs) as (r & Hr & Hrb & Hlt & Hge).
  rewrite Hr. simpl.
  assert (Hr1 : 1 <= Z.of_nat r).
  { destruct (Z_lt_le_dec 0 (Z.of_nat r)) as [? | Hr0]; [lia |].
    pose proof (Hge 0 b0 Hr0 Hb0) as Habs.
    rewrite d_lt_le, Hq0 in Habs. discriminate. }
  assert (Hr2 : Z.of_nat r <= Z.of_nat (length breaks) - 1).
  { destruct (Z_lt_le_dec (Z.of_nat (length breaks) - 1) (Z.of_nat r)) as [Hgt |]; [| lia].
    pose proof (Hlt _ bl Hgt Hbl) as Habs.
    rewrite d_lt_le, Hql in Habs. discriminate. }
  exists (Z.of_nat r). rewrite size_t_small by lia.
  split; [reflexivity |]. split; [lia |]. split; assumption.
Qed.

(** The selected index is a position of the axis. *)

Lemma find_bin_range (breaks : list double) (q : double) :
  non_decreasingb breaks = true ->
  breaks <> [] ->
  addressable breaks ->
  exists i, find_bin breaks q = Done i /\ 0 <= i <= Z.of_nat (length breaks) - 1.
Proof.
  intros Hs Hne Hfit.
  assert (Hlen : 1 <= Z.of_nat (length breaks))
    by (destruct breaks; [congruence | simpl length; lia]).
  destruct (find_bin_cases breaks q Hs Hne Hfit)
    as (b0 & bl & _ & _ & [[_ Hf] | [(_ & _ & Hf) | (_ & _ & it & Hf & Hit & _)]]).
  - exists 0. split; [exact Hf | lia].
  - eexists. split; [exact Hf | lia].
  - exists (it - 1). split; [exact Hf | lia].
Qed.

(** Queries that do not exceed the last break select a row of the table,
    the one the specification names. *)

Lemma find_bin_inside (breaks : list double) (q bl : double) :
  non_decreasingb breaks = true ->
  (2 <= length breaks)%nat ->
  addressable breaks ->
  read breaks (Z.of_nat (length breaks) - 1) = Done bl ->
  d_le q bl = true ->
  exists i, find_bin breaks q = Done i /\
    0 <= i <= Z.of_nat (length breaks) - 2 /\
    interval_spec breaks q i.
Proof.
  intros Hs Hlen Hfit Hbl Hq.
  assert (Hne : breaks <> []) by (destruct breaks; [simpl in Hlen; lia | congruence]).
  destruct (find_bin_cases breaks q Hs Hne Hfit)
    as (b0 & bl' & Hb0 & Hbl' & Hcases).
  replace bl' with bl in * by congruence.
  destruct Hcases as [[Hq0 Hf] | [(_ & Hql & _) | (Hq0 & _ & it & Hf & Hit & Hlt & Hge)]].
  - exists 0. split; [exact Hf |]. split; [lia |].
    exists b0. split; [exact Hb0 |]. rewrite Hq0. reflexivity.
  - congruence.
  - exists (it - 1). split; [exact Hf |]. split; [lia |].
    exists b0. split; [exact Hb0 |]. rewrite Hq0.
    destruct (read_in_bounds breaks (it - 1)) as [lo Hlo]; [lia |].
    destruct (read_in_bounds breaks it) as [hi Hhi]; [lia |].
    exists lo, hi. split; [exact Hlo |].
    replace (it - 1 + 1) with it by lia. split; [exact Hhi |].
    split; [apply (Hlt (it - 1)); [lia | exact Hlo] |].
    pose proof (Hge it hi (Z.le_refl it) Hhi) as Hfalse.
    rewrite d_lt_le in Hfalse. apply negb_false_iff in Hfalse. exact Hfalse.
Qed.

(** On a non-decreasing axis the specification's interval is unique. *)

Lemma interval_spec_unique (breaks : list double) (q : double) (i i' : Z) :
  non_decreasingb breaks = true ->
  interval_spec breaks q i -> interval_spec breaks q i' -> i = i'.
Proof.
  intros Hs (a0 & Ha0 & Hi) (a0' & Ha0' & Hi').
  replace a0' with a0 in * by congruence.
  destruct (d_le q a0); [congruence |].
  destruct Hi as (lo & hi & Hlo & Hhi & Hlt & Hle).
  destruct Hi' as (lo' & hi' & Hlo' & Hhi' & Hlt' & Hle').
  assert (Hcross : forall j j' hj lj',
             j < j' -> read breaks (j + 1) = Done hj -> read breaks j' = Done lj' ->
             d_le q hj = true -> d_lt lj' q = true -> False).
  { intros j j' hj lj' Hjj Hhj Hlj Hqh Hlq.
    assert (Hord : d_le hj lj' = true)
      by (apply (non_decreasingb_sorted breaks Hs (j + 1) j'); auto; lia).
    rewrite d_lt_le, (d_le_trans q hj lj' Hqh Hord) in Hlq. discriminate. }
  destruct (Z.lt_trichotomy i i') as [Hlt1 | [Heq | Hgt1]]; [exfalso | exact Heq | exfalso].
  - exact (Hcross i i' hi lo' Hlt1 Hhi Hlo' Hle Hlt').
  - exact (Hcross i' i hi' lo Hgt1 Hhi' Hlo Hle' Hlt).
Qed.

(** Queries beyond the last break select the position of the last break. *)

Lemma find_bin_beyond (breaks : list double) (q bl : double) :
  non_decreasingb breaks = true ->
  breaks <> [] ->
  addressable breaks ->
  read breaks (Z.of_nat (length breaks) - 1) = Done bl ->
  d_gt q bl = true ->
  find_bin breaks q = Done (Z.of_nat (length breaks) - 1).
Proof.
  intros Hs Hne Hfit Hbl Hq.
  rewrite d_gt_lt, d_lt_le in Hq. apply negb_true_iff in Hq.
  destruct (find_bin_cases breaks q Hs Hne Hfit)
    as (b0 & bl' & Hb0 & Hbl' & Hcases).
  replace bl' with bl in * by congruence.
  destruct Hcases as [[Hq0 Hf] | [(_ & _ & Hf) | (_ & Hql & _)]].
  - exfalso. pose proof (read_Done _ _ _ Hbl) as [Hb _].
    assert (H0l : d_le b0 bl = true)
      by (apply (non_decreasingb_sorted breaks Hs 0 (Z.of_nat (length breaks) - 1));
          auto; lia).
    rewrite (d_le_trans q b0 bl Hq0 H0l) in Hq. discriminate.
  - exact Hf.
  - congruence.
Qed.

End FindBin.

(** ** Column-major storage *)

Section ColumnMajor.

Context {A : Type}.

Lemma concat_uniform_length (blocks : list (list A)) (n : nat) :
  Forall (fun b => length b = n) blocks ->
  length (concat blocks) = (length blocks * n)%nat.
Proof.
  induction 1 as [| b bs Hb _ IH]; [reflexivity |].
  simpl. rewrite length_app, IH, Hb. reflexivity.
Qed.

Lemma concat_uniform_nth (blocks : list (list A)) (n : nat) :
  Forall (fun b => length b = n) blocks ->
  forall c i blk, nth_error blocks c = Some blk -> (i < n)%nat ->
    nth_error (concat blocks) (c * n + i) = nth_error blk i.
Proof.
  induction 1 as [| b bs Hb _ IH]; intros c i blk Hc Hi.
  - destruct c; discriminate.
  - destruct c as [| c]; simpl in Hc |- *.
    + injection Hc as ->. apply nth_error_app1. lia.
    + rewrite nth_error_app2 by lia.
      replace (n + c * n + i - length b)%nat with (c * n + i)%nat by lia.
      apply IH; assumption.
Qed.

Lemma skipn_cons_nth (k : nat) (l : list A) (c : A) (cs : list A) (d : A) :
  skipn k l = c :: cs -> nth k l d = c /\ skipn (S k) l = cs /\ (k < length l)%nat.
Proof.
  revert l. induction k as [| k IH]; intros l Hl.
  - destruct l as [| h t]; [discriminate |]. simpl in Hl.
    injection Hl as -> ->. simpl. repeat split. lia.
  - destruct l as [| h t]; [discriminate |]. simpl in Hl.
    destruct (IH t Hl) as (Hn & Hs & Hk). simpl nth. simpl length.
    split; [exact Hn |]. split; [exact Hs | lia].
Qed.

End ColumnMajor.

(** ** The coefficient loop *)

Section Horner.

Import PpvalFastCore.

Context {double : Type} {ops : DoubleOps double}.

Lemma col_major_length (table : list (list double)) (order : nat) :
  length (col_major table order) = (order * length table)%nat.
Proof.
  unfold col_major.
  rewrite (concat_uniform_length _ (length table)).
  - rewrite length_map, length_seq. reflexivity.
  - apply Forall_forall. intros b Hb. apply in_map_iff in Hb.
    destruct Hb as (c & <- & _). unfold column. apply length_map.
Qed.

(** The entry in row [i] and column [c] of the table sits at offset
    [i + c * num_polynomials] of the buffer. *)

Lemma col_major_read (table : list (list double)) (order i c : nat)
    (row : list double) :
  nth_error table i = Some row ->
  (c < order)%nat ->
  read (col_major table order)
       (Z.of_nat i + Z.of_nat c * Z.of_nat (length table))
  = Done (nth c row d_zero).
Proof.
  intros Hrow Hc.
  replace (Z.of_nat i + Z.of_nat c * Z.of_nat (length table))
    with (Z.of_nat (c * length table + i)) by lia.
  apply read_nth_error. unfold col_major.
  assert (Hi : (i < length table)%nat) by (apply nth_error_Some; congruence).
  rewrite (concat_uniform_nth _ (length table)) with (blk := column table c).
  - unfold column.
    exact (map_nth_error (fun r => nth c r d_zero) i table Hrow).
  - apply Forall_forall. intros b Hb. apply in_map_iff in Hb.
    destruct Hb as (c' & <- & _). unfold column. apply length_map.
  - rewrite nth_error_map, nth_error_seq.
    replace (c <? order)%nat with true by (symmetry; apply Nat.ltb_lt; exact Hc).
    reflexivity.
  - exact Hi.
Qed.

(** On a table given by its rows the loop folds over the rest of the row,
    highest power first. *)

Lemma horner_loop_table (table : list (list double)) (order i : nat)
    (row : list double) (d : double) :
  nth_error table i = Some row ->
  length row = order ->
  addressable (col_major table order) ->
  forall (n : nat) (cs : list double) (coef_idx : nat) (v : double),
    skipn coef_idx row = cs ->
    length cs = n ->
    horner_loop (col_major table order) (Z.of_nat (length table)) (Z.of_nat i)
                d n (Z.of_nat coef_idx) v
    = Done (fold_left (fun acc c => d_add (d_mul d acc) c) cs v).
Proof.
  intros Hrow Hlen Hfit.
  assert (Hi : (i < length table)%nat) by (apply nth_error_Some; congruence).
  unfold addressable in Hfit. rewrite col_major_length in Hfit.
  induction n as [| n IH]; intros cs coef_idx v Hcs Hn.
  - destruct cs; [reflexivity | discriminate].
  - destruct cs as [| c cs']; [discriminate |].
    destruct (skipn_cons_nth coef_idx row c cs' d_zero Hcs) as (Hc & Hcs' & Hk).
    simpl horner_loop.
    assert (Hbound : Z.of_nat i + Z.of_nat coef_idx * Z.of_nat (length table)
                     < Z.of_nat (order * length table)) by nia.
    rewrite (size_t_small (Z.of_nat coef_idx * Z.of_nat (length table))) by nia.
    rewrite size_t_small by nia.
    rewrite (col_major_read table order i coef_idx row Hrow) by lia.
    simpl. rewrite Hc.
    replace (Z.of_nat coef_idx + 1) with (Z.of_nat (S coef_idx)) by lia.
    apply IH; [exact Hcs' | simpl in Hn; lia].
Qed.

(** On any buffer of [num_polynomials * order] doubles the loop stays
    inside the buffer when [lookup_idx] is a row of the table ... *)

Lemma horner_loop_total (coefs : list double) (np order i : Z) (d : double) :
  0 <= i < np ->
  Z.of_nat (length coefs) = np * order ->
  addressable coefs ->
  forall (n : nat) (coef_idx : Z) (v : double),
    0 <= coef_idx ->
    coef_idx + Z.of_nat n = order ->
    exists r, horner_loop coefs np i d n coef_idx v = Done r.
Proof.
  intros Hi Hlen Hfit. unfold addressable in Hfit.
  induction n as [| n IH]; intros coef_idx v Hc Hn.
  - exists v. reflexivity.
  - simpl horner_loop.
    rewrite (size_t_small (coef_idx * np)) by nia.
    rewrite size_t_small by nia.
    destruct (read_in_bounds coefs (i + coef_idx * np)) as [c Hread]; [nia |].
    rewrite Hread. simpl. apply IH; lia.
Qed.

(** ... and leaves it in its last iteration when [lookup_idx] is
    [num_polynomials], one past the last row. *)

Lemma horner_loop_overrun (coefs : list double) (np order : Z) (d : double) :
  1 <= np ->
  Z.of_nat (length coefs) = np * order ->
  addressable coefs ->
  forall (n : nat) (coef_idx : Z) (v : double),
    0 <= coef_idx ->
    (1 <= n)%nat ->
    coef_idx + Z.of_nat n = order ->
    horner_loop coefs np np d n coef_idx v = OutOfBounds.
Proof.
  intros Hnp Hlen Hfit. unfold addressable in Hfit.
  induction n as [| n IH]; intros coef_idx v Hc Hn1 Hn; [lia |].
  simpl horner_loop.
  rewrite (size_t_small (coef_idx * np)) by nia.
  rewrite size_t_small by nia.
  destruct n as [| n].
  - rewrite read_beyond by nia. reflexivity.
  - destruct (read_in_bounds coefs (np + coef_idx * np)) as [c Hread]; [nia |].
    rewrite Hread. simpl. apply IH; lia.
Qed.

End Horner.

(** ** The evaluation loop *)

Section Evaluate.

Import PpvalFastCore.

Context {double : Type} {ops : DoubleOps double}.

Implicit Types (breaks coefs xx out : list double) (np order : Z).

(** Output [i] is the value of the loop body at [xx[i]]. *)

Lemma evaluate_at breaks coefs np order xx out (i : nat) (q : double) :
  evaluate breaks coefs np order xx = Done out ->
  nth_error xx i = Some q ->
  exists v, eval_point breaks coefs np order q = Done v /\
            nth_error out i = Some v.
Proof.
  revert out i. induction xx as [| x rest IH]; intros out i Hrun Hq.
  - destruct i; discriminate.
  - simpl in Hrun. apply bind_Done in Hrun. destruct Hrun as (v & Hv & Hrun).
    apply bind_Done in Hrun. destruct Hrun as (out' & Hrest & Hout).
    injection Hout as <-. destruct i as [| i]; simpl in Hq.
    + injection Hq as ->. exists v. auto.
    + exact (IH out' i Hrest Hq).
Qed.

Lemma evaluate_Forall2 breaks coefs np order xx (P : double -> double -> Prop) :
  Forall (fun q => exists v, eval_point breaks coefs np order q = Done v /\ P q v) xx ->
  exists out, evaluate breaks coefs np order xx = Done out /\ Forall2 P xx out.
Proof.
  induction 1 as [| q rest (v & Hv & HP) _ (out & Hout & Hall)].
  - exists []. split; [reflexivity | constructor].
  - exists (v :: out). simpl. rewrite Hv. simpl. rewrite Hout. simpl.
    split; [reflexivity | constructor; assumption].
Qed.

(** The two consistency checks of the gateway pass on a well-shaped call. *)

Lemma mexFunction_checked breaks coefs np order xx :
  Z.of_nat (length coefs) = np * order ->
  np = Z.of_nat (length breaks) - 1 ->
  0 <= np ->
  addressable coefs ->
  addressable breaks ->
  mexFunction breaks np order coefs xx = evaluate breaks coefs np order xx.
Proof.
  intros Hlen Hnp Hpos Hfit Hfitb. unfold addressable in *. unfold mexFunction.
  rewrite <- Hlen, <- Hnp.
  rewrite !size_t_small by lia.
  rewrite !Z.eqb_refl. reflexivity.
Qed.

End Evaluate.

Section EvaluateOrdered.

Import PpvalFastCore.

Context {double : Type} {ops : DoubleOps double} {ord : RealOrder double}.

Lemma fold_left_mul_comm (d : double) (cs : list double) : forall (v : double),
  fold_left (fun acc c => d_add (d_mul d acc) c) cs v
  = fold_left (fun acc c => d_add (d_mul acc d) c) cs v.
Proof.
  induction cs as [| c cs IH]; intros v; [reflexivity |].
  simpl. rewrite IH, (d_mul_comm d v). reflexivity.
Qed.

(** The loop body on a query that does not exceed the last break. *)

Lemma eval_point_inside (breaks : list double) (table : list (list double))
    (order : nat) (q bl : double) :
  non_decreasingb breaks = true ->
  length breaks = S (length table) ->
  table <> [] ->
  (1 <= order)%nat ->
  Forall (fun row => length row = order) table ->
  addressable breaks ->
  addressable (col_major table order) ->
  read breaks (Z.of_nat (length breaks) - 1) = Done bl ->
  d_le q bl = true ->
  exists i row a,
    interval_spec breaks q i /\
    read table i = Done row /\
    read breaks i = Done a /\
    eval_point breaks (col_major table order) (Z.of_nat (length table))
               (Z.of_nat order) q
    = Done (horner_spec row (d_sub q a)).
Proof.
  intros Hs Hlen Hne Hord Hrows Hfitb Hfit Hbl Hq.
  assert (Ht : (1 <= length table)%nat)
    by (destruct table; [congruence | simpl; lia]).
  destruct (find_bin_inside breaks q bl Hs) as (i & Hfind & Hi & Hspec);
    auto; [lia |].
  destruct (read_in_bounds table i) as [row Hrow]; [lia |].
  destruct (read_in_bounds breaks i) as [a Ha]; [lia |].
  exists i, row, a. split; [exact Hspec |]. split; [exact Hrow |].
  split; [exact Ha |].
  pose proof (read_Done _ _ _ Hrow) as [_ Hnth].
  assert (Hrl : length row = order).
  { rewrite Forall_forall in Hrows. apply Hrows.
    eapply nth_error_In. exact Hnth. }
  destruct row as [| c0 cs]; [simpl in Hrl; lia |].
  unfold eval_point. rewrite Hfind. simpl. rewrite Ha. simpl.
  pose proof (col_major_read table order (Z.to_nat i) 0 (c0 :: cs) Hnth Hord) as Hc0.
  replace (Z.of_nat (Z.to_nat i) + Z.of_nat 0 * Z.of_nat (length table))
    with i in Hc0 by lia.
  rewrite Hc0. simpl bind.
  pose proof (horner_loop_table table order (Z.to_nat i) (c0 :: cs) (d_sub q a)
                Hnth Hrl Hfit (length cs) cs 1 c0 eq_refl eq_refl) as Hloop.
  replace (Z.of_nat (Z.to_nat i)) with i in Hloop by lia.
  replace (Z.to_nat (Z.of_nat order - 1)) with (length cs)
    by (simpl in Hrl; lia).
  change (Z.of_nat 1) with 1 in Hloop. rewrite Hloop.
  simpl. rewrite fold_left_mul_comm. reflexivity.
Qed.

End EvaluateOrdered.

(** ** The evaluator on a buffer of [num_polynomials * order] doubles *)

Section EvaluateBounds.

Import PpvalFastCore.

Context {double : Type} {ops : DoubleOps double} {ord : RealOrder double}.

Lemma eval_point_in_bounds (breaks coefs : list double) (order : Z) (q bl : double) :
  non_decreasingb breaks = true ->
  (2 <= length breaks)%nat ->
  1 <= order ->
  Z.of_nat (length coefs) = (Z.of_nat (length breaks) - 1) * order ->
  addressable breaks ->
  addressable coefs ->
  read breaks (Z.of_nat (length breaks) - 1) = Done bl ->
  d_le q bl = true ->
  exists i v,
    find_bin breaks q = Done i /\
    0 <= i <= Z.of_nat (length breaks) - 2 /\
    eval_point breaks coefs (Z.of_nat (length breaks) - 1) order q = Done v.
Proof.
  intros Hs Hlen Hord Hcoefs Hfitb Hfit Hbl Hq.
  destruct (find_bin_inside breaks q bl Hs Hlen Hfitb Hbl Hq) as (i & Hfind & Hi & _).
  destruct (read_in_bounds breaks i) as [a Ha]; [lia |].
  destruct (read_in_bounds coefs i) as [c0 Hc0]; [nia |].
  destruct (horner_loop_total coefs (Z.of_nat (length breaks) - 1) order i
              (d_sub q a) ltac:(lia) Hcoefs Hfit (Z.to_nat (order - 1)) 1 c0)
    as [v Hv]; [lia | lia |].
  exists i, v. split; [exact Hfind |]. split; [exact Hi |].
  unfold eval_point. rewrite Hfind. simpl. rewrite Ha. simpl.
  rewrite Hc0. simpl. exact Hv.
Qed.

Lemma eval_point_beyond (breaks coefs : list double) (order : Z) (q bl : double) :
  non_decreasingb breaks = true ->
  (2 <= length breaks)%nat ->
  1 <= order ->
  Z.of_nat (length coefs) = (Z.of_nat (length breaks) - 1) * order ->
  addressable breaks ->
  addressable coefs ->
  read breaks (Z.of_nat (length breaks) - 1) = Done bl ->
  d_gt q bl = true ->
  find_bin breaks q = Done (Z.of_nat (length breaks) - 1) /\
  eval_point breaks coefs (Z.of_nat (length breaks) - 1) order q = OutOfBounds.
Proof.
  intros Hs Hlen Hord Hcoefs Hfitb Hfit Hbl Hq.
  assert (Hne : breaks <> []) by (destruct breaks; [simpl in Hlen; lia | congruence]).
  pose proof (find_bin_beyond breaks q bl Hs Hne Hfitb Hbl Hq) as Hfind.
  split; [exact Hfind |].
  unfold eval_point. rewrite Hfind. simpl. rewrite Hbl. simpl.
  destruct (Z.eq_dec order 1) as [-> | Hord2].
  - rewrite read_beyond by lia. reflexivity.
  - destruct (read_in_bounds coefs (Z.of_nat (length breaks) - 1)) as [c0 Hc0]; [nia |].
    rewrite Hc0. simpl.
    apply (horner_loop_overrun coefs _ order); auto; lia.
Qed.

End EvaluateBounds.

(** * The claims about ppvalFastCore *)

Section PolynomialEvaluator.

Import PpvalFastCore.

(** C1, as the code has it: for a query beyond the last break the lookup
    yields the position of the last break, [num_breaks - 1], which is one
    past the last row [num_breaks - 2] of the coefficient table, and the
    evaluation then reads outside the coefficient buffer.  Shown on the
    axis [0, 1, 2] with the table [[1, 0], [1, 1]] and the query 5. *)
Theorem query_beyond_axis_selects_last_break :
  find_bin axis_f 5%float = Done 2 /\
  Z.of_nat (length axis_f) - 2 = 1 /\
  eval_point axis_f (col_major table_f 2) 2 2 5%float = OutOfBounds.
Proof. repeat split; vm_compute; reflexivity. Qed.

(** C5, the claim as stated fails: on the specification's scenario with the
    five queries [-1, 0, 1, 1.5, 5] the evaluator does not return
    [-1, 0, 1, 1.5, 4]; the fifth query makes it read outside the table. *)
Lemma scenario_five_queries_not_as_stated :
  mexFunction axis_f 2 2 (col_major table_f 2) [-1; 0; 1; 1.5; 5]%float
  <> Done [-1; 0; 1; 1.5; 4]%float.
Proof. vm_compute. discriminate. Qed.

(** C5, amended: with Axis = [0, 1, 2], CoefficientTable = [[1, 0], [1, 1]]
    and QueryPoints = [-1, 0, 1, 1.5] the evaluator returns
    [-1, 0, 1, 1.5]. *)
Theorem scenario_four_queries :
  mexFunction axis_f 2 2 (col_major table_f 2) [-1; 0; 1; 1.5]%float
  = Done [-1; 0; 1; 1.5]%float.
Proof. vm_compute. reflexivity. Qed.

Context {double : Type} {ops : DoubleOps double} {ord : RealOrder double}.

(** C6: on a non-decreasing axis of [N >= 2] breaks and an [(N-1)]-by-[O]
    table, every query [q <= Axis[N-1]] is answered by the nested
    multiplication [acc = C[i][0]; acc = acc * d + C[i][c]] over row [i] at
    [d = q - Axis[i]], where [i = 0] if [q <= Axis[0]] and otherwise [i] is
    the one index with [Axis[i] < q <= Axis[i+1]]. *)
Theorem evaluator_is_horner_on_spec_interval
    (breaks : list double) (table : list (list double)) (order : nat)
    (xx : list double) (bl : double) :
  non_decreasingb breaks = true ->
  (2 <= length breaks)%nat ->
  length breaks = S (length table) ->
  (1 <= order)%nat ->
  Forall (fun row => length row = order) table ->
  addressable breaks ->
  addressable (col_major table order) ->
  read breaks (Z.of_nat (length breaks) - 1) = Done bl ->
  Forall (fun q => d_le q bl = true) xx ->
  exists out,
    mexFunction breaks (Z.of_nat (length table)) (Z.of_nat order)
                (col_major table order) xx = Done out /\
    Forall2 (fun q v =>
               exists i row a,
                 interval_spec breaks q i /\
                 (forall i', interval_spec breaks q i' -> i' = i) /\
                 read table i = Done row /\
                 read breaks i = Done a /\
                 v = horner_spec row (d_sub q a)) xx out.
Proof.
  intros Hs Hlen Htable Hord Hrows Hfitb Hfit Hbl Hxx.
  assert (Hne : table <> []) by (destruct table; [simpl in Htable; lia | congruence]).
  rewrite mexFunction_checked; auto; try lia.
  - apply evaluate_Forall2. apply Forall_forall. intros q Hin.
    rewrite Forall_forall in Hxx.
    destruct (eval_point_inside breaks table order q bl Hs Htable Hne Hord Hrows
                Hfitb Hfit Hbl (Hxx q Hin)) as (i & row & a & Hspec & Hrow & Ha & Hv).
    eexists. split; [exact Hv |]. exists i, row, a.
    split; [exact Hspec |]. split; [| auto].
    intros i' Hi'. exact (interval_spec_unique breaks q i' i Hs Hi' Hspec).
  - rewrite col_major_length. lia.
Qed.

(** C7: with [N >= 2], [O >= 1], a non-decreasing axis and queries
    [q <= Axis[N-1]], the selected row is at most [N-2] and no read leaves
    the axis or the coefficient buffer, so the whole batch returns; for a
    query [q > Axis[N-1]] the guarantee is lost: row [N-1] is selected and
    the evaluation reads out of bounds. *)
Theorem reads_in_bounds_up_to_last_break
    (breaks coefs : list double) (order : Z) (bl : double) :
  non_decreasingb breaks = true ->
  (2 <= length breaks)%nat ->
  1 <= order ->
  Z.of_nat (length coefs) = (Z.of_nat (length breaks) - 1) * order ->
  addressable breaks ->
  addressable coefs ->
  read breaks (Z.of_nat (length breaks) - 1) = Done bl ->
  (forall q, d_le q bl = true ->
     exists i v,
       find_bin breaks q = Done i /\
       0 <= i <= Z.of_nat (length breaks) - 2 /\
       eval_point breaks coefs (Z.of_nat (length breaks) - 1) order q = Done v) /\
  (forall xx, Forall (fun q => d_le q bl = true) xx ->
     exists out,
       mexFunction breaks (Z.of_nat (length breaks) - 1) order coefs xx = Done out /\
       length out = length xx) /\
  (forall q, d_gt q bl = true ->
     find_bin breaks q = Done (Z.of_nat (length breaks) - 1) /\
     eval_point breaks coefs (Z.of_nat (length breaks) - 1) order q = OutOfBounds).
Proof.
  intros Hs Hlen Hord Hcoefs Hfitb Hfit Hbl.
  split; [| split].
  - intros q Hq. eapply eval_point_in_bounds; eauto.
  - intros xx Hxx. rewrite mexFunction_checked; auto; try lia.
    destruct (evaluate_Forall2 breaks coefs (Z.of_nat (length breaks) - 1) order xx
                (fun _ _ => True)) as (out & Hout & Hall).
    + apply Forall_forall. intros q Hin. rewrite Forall_forall in Hxx.
      destruct (eval_point_in_bounds breaks coefs order q bl Hs Hlen Hord Hcoefs
                  Hfitb Hfit Hbl (Hxx q Hin)) as (i & v & _ & _ & Hv).
      exists v. auto.
    + exists out. split; [exact Hout |]. symmetry.
      eapply Forall2_length. exact Hall.
  - intros q Hq. eapply eval_point_beyond; eauto.
Qed.

(** C9: on a non-decreasing axis the selected interval index is monotone
    in the query: [q1 <= q2] gives [index q1 <= index q2]. *)
Theorem find_bin_monotone (breaks : list double) (q1 q2 : double) :
  non_decreasingb breaks = true ->
  breaks <> [] ->
  addressable breaks ->
  d_le q1 q2 = true ->
  exists i1 i2,
    find_bin breaks q1 = Done i1 /\ find_bin breaks q2 = Done i2 /\ i1 <= i2.
Proof.
  intros Hs Hne Hfit H12.
  destruct (find_bin_range breaks q2 Hs Hne Hfit) as (j2 & Hj2 & Hr2).
  destruct (find_bin_cases breaks q1 Hs Hne Hfit)
    as (b0 & bl & Hb0 & Hbl & C1).
  destruct (find_bin_cases breaks q2 Hs Hne Hfit)
    as (b0' & bl' & Hb0' & Hbl' & C2).
  replace b0' with b0 in * by congruence.
  replace bl' with bl in * by congruence.
  destruct C1 as [[Hq1 Hf1] | [(Hq1 & Hl1 & Hf1) | (Hq1 & Hl1 & it1 & Hf1 & Hit1 & Hlt1 & Hge1)]].
  - exists 0, j2. split; [exact Hf1 |]. split; [exact Hj2 | lia].
  - destruct C2 as [[Hq2 Hf2] | [(Hq2 & Hl2 & Hf2) | (Hq2 & Hl2 & _)]].
    + rewrite (d_le_trans q1 q2 b0 H12 Hq2) in Hq1. discriminate.
    + eexists. eexists. split; [exact Hf1 |]. split; [exact Hf2 | lia].
    + rewrite (d_le_trans q1 q2 bl H12 Hl2) in Hl1. discriminate.
  - destruct C2 as [[Hq2 Hf2] | [(Hq2 & Hl2 & Hf2) | (Hq2 & Hl2 & it2 & Hf2 & Hit2 & Hlt2 & Hge2)]].
    + rewrite (d_le_trans q1 q2 b0 H12 Hq2) in Hq1. discriminate.
    + eexists. eexists. split; [exact Hf1 |]. split; [exact Hf2 | lia].
    + exists (it1 - 1), (it2 - 1). split; [exact Hf1 |]. split; [exact Hf2 |].
      destruct (Z_lt_le_dec it2 it1) as [Hlt | Hle]; [exfalso | lia].
      destruct (read_in_bounds breaks it2) as [a Ha]; [lia |].
      pose proof (Hlt1 it2 a Hlt Ha) as Ht.
      pose proof (Hge2 it2 a (Z.le_refl it2) Ha) as Hf.
      rewrite d_lt_le in Ht, Hf.
      apply negb_true_iff in Ht. apply negb_false_iff in Hf.
      rewrite (d_le_trans q1 q2 a H12 Hf) in Ht. discriminate.
Qed.

End PolynomialEvaluator.

(** * The claims about nonUniformResampleFast *)

Ltac float_differs H :=
  match type of H with
  | ?a = ?b =>
      let E := fresh "E" in
      assert (E : slot_eqb a b = slot_eqb b b) by (rewrite H; reflexivity);
      vm_compute in E; discriminate E
  end.

Ltac axis_position Ha :=
  let Hk := fresh "Hk" in
  pose proof (read_Done _ _ _ Ha) as [Hk _]; simpl in Hk;
  match type of Ha with
  | read _ ?k = _ =>
      assert (k = 0 \/ k = 1 \/ k = 2) as [-> | [-> | ->]] by lia
  end;
  vm_compute in Ha; injection Ha as <-.

Section StepResampler.

Import NonUniformResample.

(** C2, the claim as stated fails: on the non-decreasing axis [0, 1, 2]
    with the queries [5, 0], the second query has [Axis[0] <= 0] and 0 is
    the largest index with [Axis[j] <= 0], yet the output at its position
    is [Samples[1] = (2, 0)], not [Samples[0] = (1, 0)]: the search cursor
    was left at index 2 by the first query and only steps back by one. *)
Lemma unordered_queries_copy_another_sample :
  non_decreasingb axis_f = true /\
  length samples_f = length axis_f /\
  nth_error [5; 0]%float 1 = Some 0%float /\
  greatest_le axis_f 0%float 0 /\
  read samples_f 0 = Done (1, 0)%float /\
  mexFunction axis_f samples_f [5; 0]%float = Done [(3, 0); (2, 0)]%float /\
  nth_error [(3, 0); (2, 0)]%float 1 <> Some (1, 0)%float.
Proof.
  repeat (split; [reflexivity |]).
  split; [| split; [reflexivity |]; split; [reflexivity |]].
  - split.
    + exists 0%float. split; reflexivity.
    + intros k a Ha Hle. axis_position Ha; [lia | |]; vm_compute in Hle; discriminate.
  - simpl. intros H. float_differs H.
Qed.

(** C4, the claim as stated fails: on the axis [0, 1, 2] with the queries
    [5, -1], the second query is strictly less than every axis entry, yet
    the output at its position is [Samples[1] = (2, 0)], not [(0, 0)]. *)
Lemma unordered_queries_miss_zero_fill :
  non_decreasingb axis_f = true /\
  nth_error [5; -1]%float 1 = Some (-1)%float /\
  before_all axis_f (-1)%float /\
  mexFunction axis_f samples_f [5; -1]%float = Done [(3, 0); (2, 0)]%float /\
  nth_error [(3, 0); (2, 0)]%float 1 <> Some (0, 0)%float.
Proof.
  repeat (split; [reflexivity |]).
  split; [| split; [reflexivity |]].
  - intros k a Ha. axis_position Ha; reflexivity.
  - simpl. intros H. float_differs H.
Qed.

(** The resampler's boundary scenario of the specification, in binary64. *)
Example resampler_boundary_scenario :
  mexFunction axis_f samples_f [-1; 0; 0.5; 2; 5]%float
  = Done [(0, 0); (1, 0); (1, 0); (3, 0); (3, 0)]%float.
Proof. vm_compute. reflexivity. Qed.

Context {double : Type} {ops : DoubleOps double}.

(** C10: whatever the inputs, a call either stops at the length check or
    returns one output per query, each of them [(0, 0)] or a copy of both
    components of some [Samples[j]] with [j < length Samples]. *)
Theorem outputs_are_zero_or_copies
    (x : list double) (y : list (sample double)) (xi : list double) :
  (length x <> length y /\
   mexFunction x y xi = MexErr "x length does not match y length.") \/
  (exists out,
     mexFunction x y xi = Done out /\
     length out = length xi /\
     Forall (fun v => v = (d_zero, d_zero) \/
                      exists j, 0 <= j < Z.of_nat (length y) /\ read y j = Done v)
            out).
Proof.
  unfold mexFunction. destruct (Nat.eqb_spec (length x) (length y)) as [Hlen | Hne].
  - right. simpl. symmetry in Hlen.
    destruct (resample_total x y xi 0 Hlen) as (out & Hrun & Hl); [lia |].
    exists out. split; [exact Hrun |]. split; [exact Hl |].
    apply Forall_forall. intros v Hin.
    apply In_nth_error in Hin. destruct Hin as [i Hi].
    assert (Hq : exists q, nth_error xi i = Some q).
    { destruct (nth_error xi i) eqn:Hn; [eauto |].
      apply nth_error_None in Hn.
      assert (i < length out)%nat
        by (apply (proj1 (nth_error_Some out i)); unfold sample in *; congruence).
      lia. }
    destruct Hq as [q Hq].
    destruct (resample_at x y xi 0 out i q Hrun Hq) as (ci & c' & v' & Hcur & Hp & Hn).
    assert (v' = v) as -> by (unfold sample in *; congruence).
    assert (Hci : 0 <= ci <= Z.of_nat (length x))
      by (apply (cursor_after_bounds x y (firstn i xi) 0 ci Hlen); [lia | exact Hcur]).
    destruct (resample_point_spec x y q ci Hlen Hci)
      as (r & c2 & v2 & Hp2 & Hr & _ & _ & Hcase).
    rewrite Hp in Hp2. injection Hp2 as <- <-.
    destruct Hcase as [(_ & _ & Hv) | (Hr0 & Hc' & Hv)]; [left; exact Hv |].
    right. exists c'. split; [| exact Hv]. apply read_Done in Hv. lia.
  - left. simpl. auto.
Qed.

Context {ord : RealOrder double}.

Lemma greatest_le_not_before_all (x : list double) (q : double) (j : Z) :
  greatest_le x q j -> ~ before_all x q.
Proof.
  intros [(a & Ha & Hle) _] Hall. pose proof (Hall j a Ha) as Hlt.
  rewrite d_lt_le, Hle in Hlt. discriminate.
Qed.

(** C2, amended: on a non-decreasing axis, for a query [q] that no earlier
    query point of the batch exceeds and with [Axis[k] <= q] for some [k],
    the output at the query's position is [Samples[j]], [j] the largest
    index with [Axis[j] <= q]. *)
Theorem step_resampler_copies_latest_sample
    (x : list double) (y : list (sample double)) (xi : list double)
    (i : nat) (q : double) :
  non_decreasingb x = true ->
  length y = length x ->
  nth_error xi i = Some q ->
  (forall k q', (k < i)%nat -> nth_error xi k = Some q' -> d_le q' q = true) ->
  (exists k a, read x k = Done a /\ d_le a q = true) ->
  exists out j v,
    mexFunction x y xi = Done out /\
    greatest_le x q j /\
    read y j = Done v /\
    nth_error out i = Some v.
Proof.
  intros Hs Hlen Hq Hearlier (k & a & Ha & Hle).
  destruct (resample_position x y xi i q Hs Hlen Hq Hearlier)
    as (out & v & Hrun & _ & Hn & [[Hall _] | (j & Hg & Hv)]).
  - pose proof (Hall k a Ha) as Hlt. rewrite d_lt_le, Hle in Hlt. discriminate.
  - exists out, j, v. auto.
Qed.

(** C4, amended: on a non-decreasing axis, for a query [q] that no earlier
    query point of the batch exceeds and that is strictly less than every
    axis entry (an empty axis included), the output at the query's position
    is [(0, 0)], and the batch is completed: one output per query point. *)
Theorem step_resampler_zero_before_axis
    (x : list double) (y : list (sample double)) (xi : list double)
    (i : nat) (q : double) :
  non_decreasingb x = true ->
  length y = length x ->
  nth_error xi i = Some q ->
  (forall k q', (k < i)%nat -> nth_error xi k = Some q' -> d_le q' q = true) ->
  before_all x q ->
  exists out,
    mexFunction x y xi = Done out /\
    length out = length xi /\
    nth_error out i = Some (d_zero, d_zero).
Proof.
  intros Hs Hlen Hq Hearlier Hall.
  destruct (resample_position x y xi i q Hs Hlen Hq Hearlier)
    as (out & v & Hrun & Hl & Hn & [[_ ->] | (j & Hg & _)]).
  - exists out. auto.
  - destruct (greatest_le_not_before_all x q j Hg Hall).
Qed.

End StepResampler.

(** * Dependence of an output on the query points *)

Section Dependencies.

(** C3, the claim as stated fails for the resampler: the batches [5, 0]
    and [-1, 0] agree on the axis, the samples and the query at position 1,
    and their outputs at position 1 differ ([(2, 0)] and [(1, 0)]). *)
Lemma resampler_output_depends_on_earlier_queries :
  nth_error [5; 0]%float 1 = nth_error [-1; 0]%float 1 /\
  NonUniformResample.mexFunction axis_f samples_f [5; 0]%float
    = Done [(3, 0); (2, 0)]%float /\
  NonUniformResample.mexFunction axis_f samples_f [-1; 0]%float
    = Done [(0, 0); (1, 0)]%float /\
  nth_error [(3, 0); (2, 0)]%float 1 <> nth_error [(0, 0); (1, 0)]%float 1.
Proof.
  repeat (split; [reflexivity |]).
  simpl. intros H. float_differs H.
Qed.

Context {double : Type} {ops : DoubleOps double}.

(** C3, amended: for the polynomial evaluator, [Output[i]] is a function
    of the axis, the coefficient table and [QueryPoints[i]] only.  For the
    resampler, [Output[i]] is a function of the axis, the samples and the
    query points at positions [0..i]: two runs that agree on those produce
    the same [Output[i]], whatever the later query points are. *)
Theorem outputs_depend_on_own_query_or_prefix :
  (forall (breaks coefs xx1 xx2 out1 out2 : list double) (np order : Z)
          (i : nat) (q : double),
     PpvalFastCore.mexFunction breaks np order coefs xx1 = Done out1 ->
     PpvalFastCore.mexFunction breaks np order coefs xx2 = Done out2 ->
     nth_error xx1 i = Some q ->
     nth_error xx2 i = Some q ->
     exists v,
       PpvalFastCore.eval_point breaks coefs np order q = Done v /\
       nth_error out1 i = Some v /\ nth_error out2 i = Some v) /\
  (forall (x xi1 xi2 : list double)
          (y out1 out2 : list (NonUniformResample.sample double)) (i : nat),
     NonUniformResample.mexFunction x y xi1 = Done out1 ->
     NonUniformResample.mexFunction x y xi2 = Done out2 ->
     firstn (S i) xi1 = firstn (S i) xi2 ->
     nth_error out1 i = nth_error out2 i).
Proof.
  split.
  - intros breaks coefs xx1 xx2 out1 out2 np order i q.
    unfold PpvalFastCore.mexFunction.
    destruct (negb _); [discriminate |]. destruct (negb _); [discriminate |].
    intros H1 H2 Hq1 Hq2.
    destruct (evaluate_at _ _ _ _ _ _ _ _ H1 Hq1) as (v & Hv & Hn1).
    destruct (evaluate_at _ _ _ _ _ _ _ _ H2 Hq2) as (v' & Hv' & Hn2).
    exists v. split; [exact Hv |]. split; [exact Hn1 | congruence].
  - intros x xi1 xi2 y out1 out2 i.
    unfold NonUniformResample.mexFunction.
    destruct (negb _); [discriminate |].
    intros H1 H2 Hpre.
    apply (resample_firstn _ _ _ _ _ (S i)) in H1.
    apply (resample_firstn _ _ _ _ _ (S i)) in H2.
    rewrite Hpre in H1.
    assert (Hout : firstn (S i) out1 = firstn (S i) out2)
      by (unfold NonUniformResample.sample in *; congruence).
    assert (Hi : (i <? S i)%nat = true) by (apply Nat.ltb_lt; lia).
    pose proof (nth_error_firstn (S i) out1 i) as E1.
    pose proof (nth_error_firstn (S i) out2 i) as E2.
    rewrite Hi in E1, E2. rewrite <- E1, <- E2, Hout. reflexivity.
Qed.

End Dependencies.

(** * The theorems at the boundary scenarios *)

(** The rationals have the laws of the reals. *)
Lemma Q_real_order : RealOrder Q.
Proof.
  split; simpl; intros.
  - destruct (Qlt_le_dec b a) as [Hlt | Hle].
    + right. apply Qle_bool_iff. apply Qlt_le_weak. exact Hlt.
    + left. apply Qle_bool_iff. exact Hle.
  - apply Qle_bool_iff. apply Qle_bool_iff in H, H0. eapply Qle_trans; eassumption.
  - reflexivity.
  - reflexivity.
  - destruct a, b. unfold Qmult. simpl. f_equal; [apply Z.mul_comm | apply Pos.mul_comm].
Qed.

Ltac earlier_queries :=
  let k := fresh "k" in
  let Hk := fresh "Hk" in
  let Hn := fresh "Hn" in
  intros k ? Hk Hn;
  repeat (destruct k as [| k];
          [simpl in Hn; injection Hn as <-; reflexivity |]);
  exfalso; lia.

(** Query 2 at position 3 of the ordered batch [-1, 0, 1/2, 2, 5]. *)
Lemma step_resampler_copies_latest_sample_at_scenario :
  exists out j v,
    NonUniformResample.mexFunction axis_q samples_q [-1; 0; 1 # 2; 2; 5]%Q
      = Done out /\
    NonUniformResample.greatest_le axis_q 2%Q j /\
    read samples_q j = Done v /\
    nth_error out 3 = Some v.
Proof.
  apply (step_resampler_copies_latest_sample (ord := Q_real_order)
           axis_q samples_q [-1; 0; 1 # 2; 2; 5]%Q 3%nat 2%Q).
  - reflexivity.
  - reflexivity.
  - reflexivity.
  - earlier_queries.
  - exists 0, 0%Q. split; reflexivity.
Defined.

(** Query -1 at position 1 of the batch [-2, -1, 1]. *)
Lemma step_resampler_zero_before_axis_at_scenario :
  exists out,
    NonUniformResample.mexFunction axis_q samples_q [-2; -1; 1]%Q = Done out /\
    length out = length [-2; -1; 1]%Q /\
    nth_error out 1 = Some (0%Q, 0%Q).
Proof.
  apply (step_resampler_zero_before_axis (ord := Q_real_order)
           axis_q samples_q [-2; -1; 1]%Q 1%nat (-1)%Q).
  - reflexivity.
  - reflexivity.
  - reflexivity.
  - earlier_queries.
  - intros k a Ha. axis_position Ha; reflexivity.
Defined.

(** Two evaluator batches that share the query 1.5 at position 2, and two
    resampler batches that share their first two queries. *)
Lemma outputs_depend_on_own_query_or_prefix_at_scenario :
  (exists v,
     PpvalFastCore.eval_point axis_f (PpvalFastCore.col_major table_f 2) 2 2
                              1.5%float = Done v /\
     nth_error [-1; 0; 1.5]%float 2 = Some v /\
     nth_error [1; 1; 1.5]%float 2 = Some v) /\
  nth_error [(1, 0); (1, 0); (3, 0)]%float 1
  = nth_error [(1, 0); (1, 0); (0, 0)]%float 1.
Proof.
  split.
  - apply (proj1 (@outputs_depend_on_own_query_or_prefix float float_ops)
             axis_f (PpvalFastCore.col_major table_f 2)
             [-1; 0; 1.5]%float [1; 1; 1.5]%float
             [-1; 0; 1.5]%float [1; 1; 1.5]%float 2 2 2%nat 1.5%float);
      vm_compute; reflexivity.
  - apply (proj2 (@outputs_depend_on_own_query_or_prefix float float_ops)
             axis_f [0; 0.5; 5]%float [0; 0.5; -1]%float samples_f);
      vm_compute; reflexivity.
Defined.

(** The linear table on the queries [-1, 0, 1, 3/2]. *)
Lemma evaluator_is_horner_on_spec_interval_at_scenario :
  exists out,
    PpvalFastCore.mexFunction axis_q (Z.of_nat (length table_q)) (Z.of_nat 2)
      (PpvalFastCore.col_major table_q 2) [-1; 0; 1; 3 # 2]%Q = Done out /\
    Forall2 (fun q v =>
               exists i row a,
                 PpvalFastCore.interval_spec axis_q q i /\
                 (forall i', PpvalFastCore.interval_spec axis_q q i' -> i' = i) /\
                 read table_q i = Done row /\
                 read axis_q i = Done a /\
                 v = PpvalFastCore.horner_spec row (d_sub q a))
            [-1; 0; 1; 3 # 2]%Q out.
Proof.
  apply (evaluator_is_horner_on_spec_interval (ord := Q_real_order)
           axis_q table_q 2 [-1; 0; 1; 3 # 2]%Q 2%Q).
  - reflexivity.
  - simpl. lia.
  - reflexivity.
  - lia.
  - repeat constructor.
  - unfold addressable, SIZE_MAX. simpl. lia.
  - unfold addressable, SIZE_MAX. simpl. lia.
  - reflexivity.
  - repeat constructor.
Defined.

(** The axis [0, 1, 2] with the 2-by-2 table. *)
Lemma reads_in_bounds_up_to_last_break_at_scenario :
  (forall q, d_le q 2%Q = true ->
     exists i v,
       PpvalFastCore.find_bin axis_q q = Done i /\
       0 <= i <= Z.of_nat (length axis_q) - 2 /\
       PpvalFastCore.eval_point axis_q (PpvalFastCore.col_major table_q 2)
         (Z.of_nat (length axis_q) - 1) 2 q = Done v) /\
  (forall xx, Forall (fun q => d_le q 2%Q = true) xx ->
     exists out,
       PpvalFastCore.mexFunction axis_q (Z.of_nat (length axis_q) - 1) 2
         (PpvalFastCore.col_major table_q 2) xx = Done out /\
       length out = length xx) /\
  (forall q, d_gt q 2%Q = true ->
     PpvalFastCore.find_bin axis_q q = Done (Z.of_nat (length axis_q) - 1) /\
     PpvalFastCore.eval_point axis_q (PpvalFastCore.col_major table_q 2)
       (Z.of_nat (length axis_q) - 1) 2 q = OutOfBounds).
Proof.
  apply (reads_in_bounds_up_to_last_break (ord := Q_real_order)
           axis_q (PpvalFastCore.col_major table_q 2) 2 2%Q).
  - reflexivity.
  - simpl. lia.
  - lia.
  - reflexivity.
  - unfold addressable, SIZE_MAX. simpl. lia.
  - unfold addressable, SIZE_MAX. simpl. lia.
  - reflexivity.
Defined.

(** The queries 1/2 and 3/2 on the axis [0, 1, 2]. *)
Lemma find_bin_monotone_at_scenario :
  exists i1 i2,
    PpvalFastCore.find_bin axis_q (1 # 2)%Q = Done i1 /\
    PpvalFastCore.find_bin axis_q (3 # 2)%Q = Done i2 /\
    i1 <= i2.
Proof.
  apply (find_bin_monotone (ord := Q_real_order) axis_q (1 # 2)%Q (3 # 2)%Q).
  - reflexivity.
  - discriminate.
  - unfold addressable, SIZE_MAX. simpl. lia.
  - reflexivity.
Defined.

(** * Further properties of nonUniformResampleFast *)

Section ResampleCursor.

Import NonUniformResample.

Context {double : Type} {ops : DoubleOps double}.

Implicit Types (x xi qs : list double) (y : list (sample double)) (q : double).

Lemma Forall_read (P : double -> Prop) x (k : Z) (a : double) :
  Forall P x -> read x k = Done a -> P a.
Proof.
  intros Hall Ha. apply read_Done in Ha. destruct Ha as [_ Hn].
  rewrite Forall_forall in Hall. apply Hall. eapply nth_error_In. exact Hn.
Qed.

Lemma mexFunction_same_length x y xi :
  length y = length x -> mexFunction x y xi = resample x y 0 xi.
Proof.
  intros Hlen. unfold mexFunction.
  rewrite Hlen, Nat.eqb_refl. reflexivity.
Qed.

(** A query that no axis entry is [<=] to (one before the whole axis, or a
    NaN) leaves the scan where it is: the cursor steps back by one. *)

Lemma resample_point_stuck x y q (c : Z) :
  length y = length x ->
  0 <= c <= Z.of_nat (length x) ->
  Forall (fun a => d_le a q = false) x ->
  exists v,
    resample_point x y c q = Done (Z.max 0 (c - 1), v) /\
    ((c = 0 /\ v = (d_zero, d_zero)) \/ (0 < c /\ read y (c - 1) = Done v)).
Proof.
  intros Hlen Hc Hall.
  destruct (resample_point_spec x y q c Hlen Hc)
    as (r & c' & v & Hp & Hr & Hscan & _ & Hcase).
  assert (Hrc : r = c).
  { destruct (Z.eq_dec r c) as [? | Hne]; [assumption | exfalso].
    destruct (read_in_bounds x c) as [a Ha]; [lia |].
    pose proof (Hscan c a ltac:(lia) Ha) as Hle.
    pose proof (Forall_read _ x c a Hall Ha) as Hfalse. simpl in Hfalse.
    congruence. }
  subst r. exists v.
  destruct Hcase as [(H0 & -> & ->) | (Hpos & -> & Hv)].
  - subst c. split; [exact Hp | left; auto].
  - replace (Z.max 0 (c - 1)) with (c - 1) by lia.
    split; [exact Hp | right; auto].
Qed.

(** A query that every axis entry is [<=] to drives the scan to the end of
    the axis, from any cursor. *)

Lemma resample_point_full x y q (c : Z) :
  length y = length x ->
  x <> [] ->
  0 <= c <= Z.of_nat (length x) ->
  Forall (fun a => d_le a q = true) x ->
  exists v,
    resample_point x y c q = Done (Z.of_nat (length x) - 1, v) /\
    read y (Z.of_nat (length x) - 1) = Done v.
Proof.
  intros Hlen Hne Hc Hall.
  assert (HN : 1 <= Z.of_nat (length x))
    by (destruct x; [congruence | simpl length; lia]).
  destruct (resample_point_spec x y q c Hlen Hc)
    as (r & c' & v & Hp & Hr & _ & Hstop & Hcase).
  assert (HrN : r = Z.of_nat (length x)).
  { destruct (Z.eq_dec r (Z.of_nat (length x))) as [? | Hlt]; [assumption | exfalso].
    destruct (read_in_bounds x r) as [a Ha]; [lia |].
    pose proof (Hstop a Ha) as Hfalse.
    pose proof (Forall_read _ x r a Hall Ha) as Htrue. simpl in Htrue.
    congruence. }
  subst r. exists v.
  destruct Hcase as [(H0 & _) | (_ & -> & Hv)]; [lia |].
  split; [exact Hp | exact Hv].
Qed.

Lemma resample_stuck_run x y qs : forall (c : Z),
  length y = length x ->
  0 <= c <= Z.of_nat (length x) ->
  Forall (fun q => Forall (fun a => d_le a q = false) x) qs ->
  exists out,
    resample x y c qs = Done out /\
    length out = length qs /\
    forall i v, nth_error out i = Some v ->
      (Z.of_nat i < c -> read y (c - 1 - Z.of_nat i) = Done v) /\
      (c <= Z.of_nat i -> v = (d_zero, d_zero)).
Proof.
  induction qs as [| q rest IH]; intros c Hlen Hc Hall.
  - exists []. split; [reflexivity |]. split; [reflexivity |].
    intros i v Hn. destruct i; discriminate.
  - inversion Hall as [| ? ? Hq Hrest]; subst.
    destruct (resample_point_stuck x y q c Hlen Hc Hq) as (v0 & Hp & Hv0).
    destruct (IH (Z.max 0 (c - 1)) Hlen ltac:(lia) Hrest) as (out & Hout & Hl & Hshape).
    exists (v0 :: out). simpl. rewrite Hp. simpl. rewrite Hout. simpl.
    split; [reflexivity |]. split; [congruence |].
    intros i v Hn. destruct i as [| i]; simpl in Hn.
    + injection Hn as <-.
      destruct Hv0 as [[H0 Hz] | [Hpos Hv]].
      * split; [lia | intros _; exact Hz].
      * split; [intros _; replace (c - 1 - Z.of_nat 0) with (c - 1) by lia; exact Hv
               | lia].
    + destruct (Hshape i v Hn) as [Hin Hz]. split.
      * intros Hic.
        replace (c - 1 - Z.of_nat (S i)) with (Z.max 0 (c - 1) - 1 - Z.of_nat i) by lia.
        apply Hin. lia.
      * intros Hci. apply Hz. lia.
Qed.

(** X1: whatever the order of the axis and of the batch, a query that every
    axis entry is [<=] to receives the last sample. *)
Theorem query_above_axis_copies_last_sample
    x y xi (i : nat) q :
  x <> [] ->
  length y = length x ->
  nth_error xi i = Some q ->
  Forall (fun a => d_le a q = true) x ->
  exists out v,
    mexFunction x y xi = Done out /\
    read y (Z.of_nat (length x) - 1) = Done v /\
    nth_error out i = Some v.
Proof.
  intros Hne Hlen Hq Hall.
  rewrite (mexFunction_same_length x y _ Hlen).
  destruct (resample_total x y xi 0 Hlen) as (out & Hrun & _); [lia |].
  destruct (resample_at x y xi 0 out i q Hrun Hq) as (ci & c' & v & Hcur & Hp & Hn).
  assert (Hci : 0 <= ci <= Z.of_nat (length x))
    by (apply (cursor_after_bounds x y (firstn i xi) 0 ci Hlen); [lia | exact Hcur]).
  destruct (resample_point_full x y q ci Hlen Hne Hci Hall) as (v' & Hp' & Hv').
  exists out, v. split; [exact Hrun |]. split; [| exact Hn].
  rewrite Hp in Hp'. injection Hp' as _ ->. exact Hv'.
Qed.

(** X2: when no query of the batch has an axis entry [<=] to it (an empty
    axis, queries before the axis, NaNs), every output is [(0, 0)]. *)
Theorem unreachable_queries_give_zeros x y xi :
  length y = length x ->
  Forall (fun q => Forall (fun a => d_le a q = false) x) xi ->
  mexFunction x y xi = Done (repeat (d_zero, d_zero) (length xi)).
Proof.
  intros Hlen Hall.
  rewrite (mexFunction_same_length x y _ Hlen).
  induction Hall as [| q rest Hq _ IH]; [reflexivity |].
  destruct (resample_point_stuck x y q 0 Hlen ltac:(lia) Hq) as (v & Hp & Hv).
  destruct Hv as [[_ ->] | [Hpos _]]; [| lia].
  simpl. change (Z.max 0 (0 - 1)) with 0 in Hp. rewrite Hp. simpl.
  rewrite IH. reflexivity.
Qed.

(** X3: after a query that every axis entry is [<=] to, queries that no axis
    entry is [<=] to replay the samples backwards, one index per query,
    and give [(0, 0)] once index 0 has been used: output [i] is
    [Samples[N-1-i]] for [i < N] and [(0, 0)] from then on. *)
Theorem decreasing_queries_replay_samples_backwards
    x y q qs :
  x <> [] ->
  length y = length x ->
  Forall (fun a => d_le a q = true) x ->
  Forall (fun q' => Forall (fun a => d_le a q' = false) x) qs ->
  exists out,
    mexFunction x y (q :: qs) = Done out /\
    length out = S (length qs) /\
    forall i v, nth_error out i = Some v ->
      (Z.of_nat i < Z.of_nat (length x) ->
       read y (Z.of_nat (length x) - 1 - Z.of_nat i) = Done v) /\
      (Z.of_nat (length x) <= Z.of_nat i -> v = (d_zero, d_zero)).
Proof.
  intros Hne Hlen Hq Hqs.
  assert (HN : 1 <= Z.of_nat (length x))
    by (destruct x; [congruence | simpl length; lia]).
  rewrite (mexFunction_same_length x y _ Hlen).
  destruct (resample_point_full x y q 0 Hlen Hne ltac:(lia) Hq) as (v0 & Hp & Hv0).
  destruct (resample_stuck_run x y qs (Z.of_nat (length x) - 1) Hlen ltac:(lia) Hqs)
    as (out & Hout & Hl & Hshape).
  simpl. rewrite Hp. simpl. rewrite Hout. simpl.
  exists (v0 :: out). split; [reflexivity |]. split; [simpl; congruence |].
  intros i v Hn. destruct i as [| i]; simpl in Hn.
  - injection Hn as <-. split; [| lia].
    intros _. replace (Z.of_nat (length x) - 1 - Z.of_nat 0)
      with (Z.of_nat (length x) - 1) by lia. exact Hv0.
  - destruct (Hshape i v Hn) as [Hin Hz]. split.
    + intros Hi.
      replace (Z.of_nat (length x) - 1 - Z.of_nat (S i))
        with (Z.of_nat (length x) - 1 - 1 - Z.of_nat i) by lia.
      apply Hin. lia.
    + intros Hi. apply Hz. lia.
Qed.

End ResampleCursor.

Section ResampleAnyScalars.

Import NonUniformResample.

Context {double : Type} {ops : DoubleOps double}.

Implicit Types (x xi vals : list double) (y : list (sample double)) (q m : double).

Lemma transitiveb_sound vals : transitiveb vals = true -> transitive_on vals.
Proof.
  unfold transitiveb. intros Hb a b c Ha Hb' Hc Hab Hbc.
  rewrite forallb_forall in Hb. pose proof (Hb a Ha) as H1.
  rewrite forallb_forall in H1. pose proof (H1 b Hb') as H2.
  rewrite forallb_forall in H2. pose proof (H2 c Hc) as H3.
  rewrite Hab, Hbc in H3. simpl in H3. exact H3.
Qed.

Lemma read_In (a : list double) (i : Z) (v : double) :
  read a i = Done v -> In v a.
Proof.
  intros Hv. apply read_Done in Hv. destruct Hv as [_ Hn].
  eapply nth_error_In. exact Hn.
Qed.

Lemma non_decreasingb_head_on vals (t : list double) : forall (h : double),
  transitive_on vals -> In h vals -> incl t vals ->
  non_decreasingb (h :: t) = true ->
  forall j b, read t j = Done b -> d_le h b = true.
Proof.
  induction t as [| h' t' IH]; intros h Htr Hh Hincl Hs j b Hb.
  - apply read_Done in Hb. simpl in Hb. lia.
  - change (d_le h h' && non_decreasingb (h' :: t') = true) in Hs.
    apply andb_true_iff in Hs. destruct Hs as [Hhh Hs].
    apply incl_cons_inv in Hincl. destruct Hincl as [Hh' Hincl].
    pose proof (read_In _ _ _ Hb) as Hbin.
    rewrite read_cons in Hb. destruct (j =? 0).
    + injection Hb as <-. exact Hhh.
    + apply (Htr h h' b Hh Hh'); [| exact Hhh |].
      * destruct Hbin as [<- | Hbin]; [exact Hh' | exact (Hincl b Hbin)].
      * exact (IH h' Htr Hh' Hincl Hs _ _ Hb).
Qed.

(** Adjacent order gives the order between two different positions; no
    entry has to compare with itself. *)

Lemma non_decreasingb_strict vals (a : list double) :
  transitive_on vals -> incl a vals ->
  non_decreasingb a = true ->
  forall i j ai aj, i < j ->
    read a i = Done ai -> read a j = Done aj -> d_le ai aj = true.
Proof.
  intros Htr. induction a as [| h t IH]; intros Hincl Hs i j ai aj Hij Hi Hj.
  - apply read_Done in Hi. simpl in Hi. lia.
  - pose proof (read_Done _ _ _ Hi) as [Hib _].
    apply incl_cons_inv in Hincl. destruct Hincl as [Hh Hincl].
    rewrite read_cons in Hi, Hj.
    destruct (Z.eqb_spec j 0) as [-> | Hj0]; [lia |].
    destruct (Z.eqb_spec i 0) as [-> | Hi0].
    + injection Hi as <-.
      exact (non_decreasingb_head_on vals t h Htr Hh Hincl Hs _ _ Hj).
    + apply (IH Hincl (non_decreasingb_tail h t Hs) (i - 1) (j - 1)); [lia | auto | auto].
Qed.

Lemma resample_point_below_on vals x y q m (c c' : Z) (v : sample double) :
  transitive_on vals -> incl x vals -> In q vals -> In m vals ->
  length y = length x ->
  0 <= c <= Z.of_nat (length x) ->
  below x c m -> d_le q m = true ->
  resample_point x y c q = Done (c', v) ->
  below x c' m.
Proof.
  intros Htr Hincl Hq Hm Hlen Hc Hbelow Hqm Hp.
  destruct (resample_point_spec x y q c Hlen Hc)
    as (r & c2 & v2 & Hp2 & Hr & Hscan & _ & Hcase).
  rewrite Hp in Hp2. injection Hp2 as <- <-.
  intros k a Hk Ha.
  destruct (Z_lt_le_dec k c) as [Hkc | Hkc].
  - exact (Hbelow k a Hkc Ha).
  - apply (Htr a q m (Hincl a (read_In _ _ _ Ha)) Hq Hm); [| exact Hqm].
    apply (Hscan k a); [| exact Ha].
    destruct Hcase as [(? & ? & ?) | (? & ? & ?)]; lia.
Qed.

Lemma cursor_after_below_on vals x y xi m : forall (c ci : Z),
  transitive_on vals -> incl x vals -> In m vals ->
  length y = length x ->
  0 <= c <= Z.of_nat (length x) ->
  below x c m ->
  Forall (fun q' => In q' vals /\ d_le q' m = true) xi ->
  cursor_after x y c xi = Done ci ->
  below x ci m.
Proof.
  induction xi as [| q rest IH]; intros c ci Htr Hincl Hm Hlen Hc Hbelow Hall Hcur.
  - simpl in Hcur. injection Hcur as <-. exact Hbelow.
  - simpl in Hcur. apply bind_Done in Hcur. destruct Hcur as ([c1 v1] & Hp & Hcur).
    inversion Hall as [| ? ? [Hq Hqm] Hrest]; subst.
    apply (IH c1 ci Htr Hincl Hm Hlen); auto.
    + eapply resample_point_cursor; eauto.
    + eapply (resample_point_below_on vals); eauto.
Qed.

(** Convention A at one resample point, in its own words: [(0, 0)] if no
    axis entry is [<= q], else the sample at the greatest index whose entry
    is [<= q]; for a cursor that has only passed entries [<= q]. *)

Lemma resample_point_sorted_on vals x y q (c : Z) :
  transitive_on vals -> incl x vals -> In q vals ->
  non_decreasingb x = true ->
  length y = length x ->
  0 <= c <= Z.of_nat (length x) ->
  below x c q ->
  exists c' v,
    resample_point x y c q = Done (c', v) /\
    (((forall k a, read x k = Done a -> d_le a q = false) /\
      v = (d_zero, d_zero)) \/
     (greatest_le x q c' /\ read y c' = Done v)).
Proof.
  intros Htr Hincl Hq Hs Hlen Hc Hbelow.
  destruct (resample_point_spec x y q c Hlen Hc)
    as (r & c' & v & Hp & Hr & Hscan & Hstop & Hcase).
  exists c', v. split; [exact Hp |].
  assert (Hbeyond : forall k a, r <= k -> read x k = Done a -> d_le a q = false).
  { intros k a Hrk Ha. pose proof (read_Done _ _ _ Ha) as [Hk _].
    destruct (read_in_bounds x r) as [ar Har]; [lia |].
    pose proof (Hstop ar Har) as Hfalse.
    destruct (Z.eq_dec k r) as [-> | Hne]; [congruence |].
    destruct (d_le a q) eqn:Haq; [exfalso | reflexivity].
    assert (Hord : d_le ar a = true)
      by (apply (non_decreasingb_strict vals x Htr Hincl Hs r k); auto; lia).
    rewrite (Htr ar a q (Hincl _ (read_In _ _ _ Har)) (Hincl _ (read_In _ _ _ Ha))
               Hq Hord Haq) in Hfalse.
    discriminate. }
  destruct Hcase as [(Hr0 & Hc0 & Hv) | (Hrpos & Hc' & Hv)].
  - left. split; [| exact Hv]. subst r.
    intros k a Ha. pose proof (read_Done _ _ _ Ha) as [Hk _].
    apply (Hbeyond k a); [lia | exact Ha].
  - right. split; [| exact Hv]. split.
    + destruct (read_in_bounds x c') as [a Ha]; [lia |].
      exists a. split; [exact Ha |].
      destruct (Z_lt_le_dec c' c) as [Hlt | Hge].
      * exact (Hbelow c' a Hlt Ha).
      * apply (Hscan c' a); [lia | exact Ha].
    + intros k a Ha Hle.
      destruct (Z_lt_le_dec c' k) as [Hlt | Hge]; [| exact Hge].
      exfalso. rewrite (Hbeyond k a ltac:(lia) Ha) in Hle. discriminate.
Qed.

Lemma resample_position_on vals x y xi (i : nat) q :
  transitive_on vals -> incl x vals -> incl xi vals ->
  non_decreasingb x = true ->
  length y = length x ->
  nth_error xi i = Some q ->
  (forall k q', (k < i)%nat -> nth_error xi k = Some q' -> d_le q' q = true) ->
  exists out v,
    mexFunction x y xi = Done out /\
    length out = length xi /\
    nth_error out i = Some v /\
    (((forall k a, read x k = Done a -> d_le a q = false) /\
      v = (d_zero, d_zero)) \/
     (exists j, greatest_le x q j /\ read y j = Done v)).
Proof.
  intros Htr Hincl Hinclq Hs Hlen Hq Hearlier.
  assert (Hqin : In q vals) by (apply Hinclq; eapply nth_error_In; exact Hq).
  rewrite (mexFunction_same_length x y xi Hlen).
  destruct (resample_total x y xi 0 Hlen) as (out & Hrun & Hl); [lia |].
  destruct (resample_at x y xi 0 out i q Hrun Hq) as (ci & c' & v & Hcur & Hp & Hn).
  exists out, v. split; [exact Hrun |]. split; [exact Hl |]. split; [exact Hn |].
  assert (Hci : 0 <= ci <= Z.of_nat (length x))
    by (apply (cursor_after_bounds x y (firstn i xi) 0 ci Hlen); [lia | exact Hcur]).
  assert (Hbelow : below x ci q).
  { apply (cursor_after_below_on vals x y (firstn i xi) q 0 ci Htr Hincl Hqin Hlen);
      auto; [lia | |].
    - intros k a Hk Ha. apply read_Done in Ha. lia.
    - apply Forall_forall. intros q' Hin. apply In_nth_error in Hin.
      destruct Hin as [k Hk]. rewrite nth_error_firstn in Hk.
      destruct (k <? i)%nat eqn:Hki; [| discriminate].
      apply Nat.ltb_lt in Hki. split; [| exact (Hearlier k q' Hki Hk)].
      apply Hinclq. eapply nth_error_In. exact Hk. }
  destruct (resample_point_sorted_on vals x y q ci Htr Hincl Hqin Hs Hlen Hci Hbelow)
    as (c2 & v2 & Hp2 & Hcase).
  rewrite Hp in Hp2. injection Hp2 as <- <-.
  destruct Hcase as [Hz | [Hg Hv]]; [left; exact Hz | right; eauto].
Qed.

(** C8: on a non-decreasing axis and with non-decreasing query points the
    resampler follows convention A at every position.  In the convention's
    own words, for every query, a NaN included: [(0, 0)] when no axis entry
    is [<= q], and [Samples[j]], [j] the greatest index with
    [Axis[j] <= q], when there is one.  In the words of the claim, for every
    query that compares with the axis entries as reals do ([q < a] exactly
    when not [a <= q], so no NaN): [(0, 0)] when [q] is strictly less than
    every axis entry, and otherwise [Samples[j]].  Of the scalars only the
    transitivity of [<=] on the values at hand is used. *)
Theorem step_resampler_ordered_queries x y xi :
  non_decreasingb x = true ->
  length y = length x ->
  non_decreasingb xi = true ->
  transitiveb (x ++ xi) = true ->
  exists out,
    mexFunction x y xi = Done out /\
    length out = length xi /\
    forall i q, nth_error xi i = Some q ->
      ((forall k a, read x k = Done a -> d_le a q = false) ->
       nth_error out i = Some (d_zero, d_zero)) /\
      ((exists k a, read x k = Done a /\ d_le a q = true) ->
       exists j v, greatest_le x q j /\ read y j = Done v /\
                   nth_error out i = Some v) /\
      ((forall k a, read x k = Done a -> d_lt q a = negb (d_le a q)) ->
       (before_all x q -> nth_error out i = Some (d_zero, d_zero)) /\
       (~ before_all x q ->
        exists j v, greatest_le x q j /\ read y j = Done v /\
                    nth_error out i = Some v)).
Proof.
  intros Hs Hlen Hxi Htrb.
  pose proof (transitiveb_sound _ Htrb) as Htr.
  assert (Hrun : exists out, mexFunction x y xi = Done out /\ length out = length xi).
  { rewrite (mexFunction_same_length x y xi Hlen).
    apply resample_total; [exact Hlen | lia]. }
  destruct Hrun as (out & Hrun & Hl).
  exists out. split; [exact Hrun |]. split; [exact Hl |].
  intros i q Hq.
  assert (Hearlier : forall k q', (k < i)%nat -> nth_error xi k = Some q' ->
                                  d_le q' q = true).
  { intros k q' Hk Hq'.
    apply (non_decreasingb_strict (x ++ xi) xi Htr (incl_appr x (incl_refl xi)) Hxi
             (Z.of_nat k) (Z.of_nat i));
      [lia | apply read_nth_error; exact Hq' | apply read_nth_error; exact Hq]. }
  destruct (resample_position_on (x ++ xi) x y xi i q Htr
              (incl_appl xi (incl_refl x)) (incl_appr x (incl_refl xi))
              Hs Hlen Hq Hearlier)
    as (out' & v & Hrun' & _ & Hn & Hcase).
  assert (out' = out) as -> by (unfold sample in *; congruence).
  destruct Hcase as [[Hnone ->] | (j & Hg & Hv)].
  - split; [intros _; exact Hn |]. split.
    + intros (k & a & Ha & Hle). rewrite (Hnone k a Ha) in Hle. discriminate.
    + intros Hcmp. split; [intros _; exact Hn |].
      intros Hnot. exfalso. apply Hnot. intros k a Ha.
      rewrite (Hcmp k a Ha), (Hnone k a Ha). reflexivity.
  - pose proof Hg as [(aj & Haj & Hlej) _]. split.
    + intros Hnone. rewrite (Hnone j aj Haj) in Hlej. discriminate.
    + split; [intros _; exists j, v; auto |].
      intros Hcmp. split.
      * intros Hall. pose proof (Hall j aj Haj) as Hlt.
        rewrite (Hcmp j aj Haj), Hlej in Hlt. discriminate.
      * intros _. exists j, v. auto.
Qed.

(** X4: one pass of the loop body on a non-decreasing axis, from any cursor
    [c]: the sample taken is never an earlier one than convention A asks
    for.  If [j] is the greatest index with [Axis[j] <= q], index
    [max j (c-1)] is taken; if no axis entry is [<= q] (a query before the
    whole axis, or a NaN), index [c-1] is taken, or [(0, 0)] is written
    when [c = 0].  Of the scalars only the transitivity of [<=] on the
    values at hand is used. *)
Theorem loop_body_takes_later_of_target_and_cursor x y q (c : Z) :
  non_decreasingb x = true ->
  length y = length x ->
  0 <= c <= Z.of_nat (length x) ->
  transitiveb (q :: x) = true ->
  exists c' v,
    resample_point x y c q = Done (c', v) /\
    (((forall k a, read x k = Done a -> d_le a q = false) /\
      c' = Z.max 0 (c - 1) /\
      ((c = 0 /\ v = (d_zero, d_zero)) \/ (0 < c /\ read y c' = Done v))) \/
     (exists j, greatest_le x q j /\ c' = Z.max j (c - 1) /\ read y c' = Done v)).
Proof.
  intros Hs Hlen Hc Htrb.
  pose proof (transitiveb_sound _ Htrb) as Htr.
  assert (Hincl : incl x (q :: x)) by (apply incl_tl, incl_refl).
  assert (Hq : In q (q :: x)) by (left; reflexivity).
  destruct (resample_point_sorted_on (q :: x) x y q 0 Htr Hincl Hq Hs Hlen)
    as (c0 & v0 & _ & [[Hnone _] | [Hg _]]).
  - lia.
  - intros k a Hk Ha. apply read_Done in Ha. lia.
  - assert (Hfalse : Forall (fun a => d_le a q = false) x).
    { apply Forall_forall. intros a Hin. apply In_nth_error in Hin.
      destruct Hin as [k Hk]. apply read_nth_error in Hk.
      exact (Hnone _ a Hk). }
    destruct (resample_point_stuck x y q c Hlen Hc Hfalse) as (v & Hp & Hv).
    exists (Z.max 0 (c - 1)), v. split; [exact Hp |]. left.
    split; [exact Hnone |]. split; [reflexivity |].
    destruct Hv as [Hz | [Hpos Hv]]; [left; exact Hz | right].
    split; [exact Hpos |]. replace (Z.max 0 (c - 1)) with (c - 1) by lia. exact Hv.
  - rename c0 into j. destruct Hg as [(aj & Haj & Hlej) Hmax].
    pose proof (read_Done _ _ _ Haj) as [Hj _].
    destruct (resample_point_spec x y q c Hlen Hc)
      as (r & c' & v & Hp & Hr & Hscan & Hstop & Hcase).
    assert (Hrj : j + 1 <= r).
    { destruct (Z_lt_le_dec r (j + 1)) as [Hlt | ?]; [exfalso | assumption].
      destruct (read_in_bounds x r) as [a Ha]; [lia |].
      pose proof (Hstop a Ha) as Hf.
      destruct (Z.eq_dec r j) as [-> | Hne]; [congruence |].
      assert (Hord : d_le a aj = true)
        by (apply (non_decreasingb_strict (q :: x) x Htr Hincl Hs r j); auto; lia).
      rewrite (Htr a aj q (Hincl _ (read_In _ _ _ Ha)) (Hincl _ (read_In _ _ _ Haj))
                 Hq Hord Hlej) in Hf.
      discriminate. }
    assert (Hrmax : r = Z.max c (j + 1)).
    { destruct (Z_lt_le_dec (Z.max c (j + 1)) r) as [Hlt | ?]; [exfalso | lia].
      destruct (read_in_bounds x (r - 1)) as [a Ha]; [lia |].
      pose proof (Hscan (r - 1) a ltac:(lia) Ha) as Hle.
      pose proof (Hmax (r - 1) a Ha Hle). lia. }
    exists c', v. split; [exact Hp |]. right. exists j.
    split; [split; [exists aj; auto | exact Hmax] |].
    destruct Hcase as [(H0 & _) | (_ & Hc' & Hv)]; [lia |].
    split; [lia | exact Hv].
Qed.

End ResampleAnyScalars.

(** * Further properties of ppvalFastCore *)

Section LookupAnyAxis.

Import PpvalFastCore.

Context {double : Type} {ops : DoubleOps double}.

(** What the halving search has seen when it returns, on any array: the
    entry before the returned position compared [<] the value, the entry at
    the returned position did not. *)

Lemma lower_bound_loop_local (a : list double) (val : double) (first len : nat) :
  (first + len <= length a)%nat ->
  exists r, lower_bound_loop a val first len = Done r /\
    (first <= r <= first + len)%nat /\
    ((first < r)%nat ->
     exists m, read a (Z.of_nat r - 1) = Done m /\ d_lt m val = true) /\
    ((r < first + len)%nat ->
     exists m, read a (Z.of_nat r) = Done m /\ d_lt m val = false).
Proof.
  funelim (lower_bound_loop a val first len); intros Hlen;
    try (clear Heqcall; pose proof (Nat.lt_div2 (S n) (Nat.lt_0_succ n)) as Hhalf;
         set (half := Nat.div2 (S n)) in *; clearbody half).
  - exists first. split; [reflexivity |]. split; [lia |]. split; intros; lia.
  - destruct (read_in_bounds a (Z.of_nat (first + half))) as [? ?];
      [lia | congruence].
  - destruct (read_in_bounds a (Z.of_nat (first + half))) as [? ?];
      [lia | congruence].
  - destruct H as (r & Hr & Hb & Hlow & Hhigh); [lia |].
    exists r. split; [exact Hr |]. split; [lia |]. split.
    + intros _. destruct (Nat.eq_dec r (first + half + 1)) as [-> | Hne].
      * exists m. split; [| exact Heq].
        replace (Z.of_nat (first + half + 1) - 1) with (Z.of_nat (first + half)) by lia.
        exact Heq0.
      * apply Hlow. lia.
    + intros Hlt. apply Hhigh. lia.
  - destruct H as (r & Hr & Hb & Hlow & Hhigh); [lia |].
    exists r. split; [exact Hr |]. split; [lia |]. split.
    + exact Hlow.
    + intros _. destruct (Nat.eq_dec r (first + half)) as [-> | Hne].
      * exists m. split; [exact Heq0 | exact Heq].
      * apply Hhigh. lia.
Qed.

(** A value that compares [<] with no entry is placed at the front. *)

Lemma lower_bound_loop_front (a : list double) (val : double) (first len : nat) :
  Forall (fun m => d_lt m val = false) a ->
  (first + len <= length a)%nat ->
  lower_bound_loop a val first len = Done first.
Proof.
  intros Hall Hlen.
  destruct (lower_bound_loop_local a val first len Hlen) as (r & Hr & Hb & Hlow & _).
  destruct (Nat.eq_dec r first) as [-> | Hne]; [exact Hr | exfalso].
  destruct Hlow as (m & Hm & Hlt); [lia |].
  pose proof (Forall_read _ a _ m Hall Hm) as Hf. simpl in Hf. congruence.
Qed.

(** Reads, the search and the lookup end normally or out of bounds. *)

Lemma read_not_MexErr (A : Type) (a : list A) (i : Z) (msg : string) :
  read a i <> MexErr msg.
Proof.
  unfold read. destruct (_ && _); [| discriminate].
  destruct (nth_error a (Z.to_nat i)); discriminate.
Qed.

Lemma lower_bound_loop_not_MexErr (a : list double) (val : double)
    (first len : nat) (msg : string) :
  lower_bound_loop a val first len <> MexErr msg.
Proof.
  revert msg. funelim (lower_bound_loop a val first len); intros msg';
    try discriminate; auto.
  exfalso. exact (read_not_MexErr _ _ _ _ Heq).
Qed.

Lemma find_bin_not_MexErr (breaks : list double) (q : double) (msg : string) :
  find_bin breaks q <> MexErr msg.
Proof.
  unfold find_bin, lower_bound.
  repeat match goal with
         | |- bind ?m _ <> _ =>
             let E := fresh "E" in
             destruct m eqn:E; simpl;
             [| exfalso;
                first [exact (read_not_MexErr _ _ _ _ E)
                      | exact (lower_bound_loop_not_MexErr _ _ _ _ _ E)]
              | discriminate]
         | |- (if ?b then _ else _) <> _ => destruct b
         | |- Done _ <> _ => discriminate
         end.
Qed.

End LookupAnyAxis.

Section EvaluateOutcomes.

Import PpvalFastCore.

Context {double : Type} {ops : DoubleOps double}.

Lemma read_nil (A : Type) (i : Z) : read (@nil A) i = OutOfBounds.
Proof.
  destruct (Z_lt_le_dec i 0) as [Hneg | Hpos].
  - unfold read. replace (0 <=? i) with false by (symmetry; apply Z.leb_gt; lia).
    reflexivity.
  - apply read_beyond. simpl. exact Hpos.
Qed.

Lemma horner_loop_not_MexErr (coefs : list double) (np i : Z) (d : double)
    (msg : string) : forall (n : nat) (coef_idx : Z) (v : double),
  horner_loop coefs np i d n coef_idx v <> MexErr msg.
Proof.
  induction n as [| n IH]; intros coef_idx v; [discriminate |].
  simpl. destruct (read coefs _) eqn:E; simpl;
    [apply IH | exfalso; exact (read_not_MexErr _ _ _ _ E) | discriminate].
Qed.

Lemma eval_point_not_MexErr (breaks coefs : list double) (np order : Z)
    (q : double) (msg : string) :
  eval_point breaks coefs np order q <> MexErr msg.
Proof.
  unfold eval_point.
  destruct (find_bin breaks q) eqn:Ef; simpl;
    [| exfalso; exact (find_bin_not_MexErr _ _ _ Ef) | discriminate].
  destruct (read breaks a) eqn:Eb; simpl;
    [| exfalso; exact (read_not_MexErr _ _ _ _ Eb) | discriminate].
  destruct (read coefs a) eqn:Ec; simpl;
    [| exfalso; exact (read_not_MexErr _ _ _ _ Ec) | discriminate].
  apply horner_loop_not_MexErr.
Qed.

(** A batch with a query that reads out of bounds reads out of bounds. *)

Lemma evaluate_OutOfBounds (breaks coefs : list double) (np order : Z)
    (xx : list double) :
  Exists (fun q => eval_point breaks coefs np order q = OutOfBounds) xx ->
  evaluate breaks coefs np order xx = OutOfBounds.
Proof.
  induction 1 as [q rest Hq | q rest _ IH]; simpl.
  - rewrite Hq. reflexivity.
  - destruct (eval_point breaks coefs np order q) eqn:E; simpl.
    + rewrite IH. reflexivity.
    + exfalso. exact (eval_point_not_MexErr _ _ _ _ _ _ E).
    + reflexivity.
Qed.

Lemma eval_point_no_coefs (breaks : list double) (np order : Z) (q : double) :
  eval_point breaks [] np order q = OutOfBounds.
Proof.
  unfold eval_point.
  destruct (find_bin breaks q) eqn:Ef; simpl;
    [| exfalso; exact (find_bin_not_MexErr _ _ _ Ef) | reflexivity].
  destruct (read breaks a) eqn:Eb; simpl;
    [| exfalso; exact (read_not_MexErr _ _ _ _ Eb) | reflexivity].
  rewrite read_nil. reflexivity.
Qed.

(** X10: a coefficient matrix without entries (order 0, or a single break and
    no polynomial) passes the consistency checks of the gateway, and then
    the first query already reads outside the coefficient buffer. *)
Theorem empty_coefficient_matrix_reads_out_of_bounds
    (breaks : list double) (order : Z) (q : double) (rest : list double) :
  breaks <> [] ->
  addressable breaks ->
  (Z.of_nat (length breaks) - 1) * order = 0 ->
  mexFunction breaks (Z.of_nat (length breaks) - 1) order [] (q :: rest)
  = OutOfBounds.
Proof.
  intros Hne Hfit Hzero.
  assert (HN : 1 <= Z.of_nat (length breaks))
    by (destruct breaks; [congruence | simpl length; lia]).
  unfold addressable in Hfit. unfold mexFunction.
  rewrite Hzero. change (size_t 0) with 0. simpl length.
  rewrite size_t_small by lia. rewrite !Z.eqb_refl. simpl.
  rewrite eval_point_no_coefs. reflexivity.
Qed.

(** X11: an empty breaks array never reaches the evaluation loop: because
    [num_breaks - 1] wraps to [SIZE_MAX], one of the two consistency checks
    stops the call for every row count below [SIZE_MAX]. *)
Theorem empty_breaks_are_rejected
    (np order : Z) (coefs xx : list double) :
  0 <= np < SIZE_MAX ->
  exists msg, mexFunction [] np order coefs xx = MexErr msg.
Proof.
  intros Hnp. unfold mexFunction.
  destruct (negb _); [eexists; reflexivity |].
  simpl length. change (size_t (Z.of_nat 0 - 1)) with SIZE_MAX.
  replace (np =? SIZE_MAX) with false by (symmetry; apply Z.eqb_neq; lia).
  simpl. eexists. reflexivity.
Qed.

(** X9: a query that compares false with every break in all three
    comparisons of the lookup (an IEEE NaN) is placed at the front by the
    search; [lookup_idx = 0 - 1] wraps to [SIZE_MAX] and the evaluation
    reads outside the breaks. *)
Theorem unordered_query_wraps_the_lookup
    (breaks : list double) (q : double) :
  breaks <> [] ->
  addressable breaks ->
  Forall (fun a => d_le q a = false /\ d_gt q a = false /\ d_lt a q = false)
         breaks ->
  find_bin breaks q = Done SIZE_MAX /\
  forall coefs np order, eval_point breaks coefs np order q = OutOfBounds.
Proof.
  intros Hne Hfit Hall.
  assert (HN : 1 <= Z.of_nat (length breaks))
    by (destruct breaks; [congruence | simpl length; lia]).
  unfold addressable in Hfit.
  assert (Hfind : find_bin breaks q = Done SIZE_MAX).
  { unfold find_bin.
    destruct (read_in_bounds breaks 0) as [b0 Hb0]; [lia |].
    destruct (read_in_bounds breaks (Z.of_nat (length breaks) - 1)) as [bl Hbl]; [lia |].
    rewrite Hb0. simpl.
    destruct (Forall_read _ breaks 0 b0 Hall Hb0) as (H0 & _ & _). rewrite H0.
    rewrite size_t_small by lia. rewrite Hbl. simpl.
    destruct (Forall_read _ breaks _ bl Hall Hbl) as (_ & Hl & _). rewrite Hl.
    unfold lower_bound. rewrite lower_bound_loop_front.
    - reflexivity.
    - apply (Forall_impl _ (P := fun a => d_le q a = false /\ d_gt q a = false /\
                                         d_lt a q = false)); [tauto | exact Hall].
    - lia. }
  split; [exact Hfind |].
  intros coefs np order. unfold eval_point. rewrite Hfind. simpl.
  rewrite read_beyond by (unfold SIZE_MAX in *; lia). reflexivity.
Qed.

End EvaluateOutcomes.

Section LookupConsistent.

Import PpvalFastCore.

Context {double : Type} {ops : DoubleOps double}.

(** The three branches of the lookup on any non-empty axis whose breaks
    all compare consistently with the query. *)

Lemma find_bin_local (breaks : list double) (q : double) :
  breaks <> [] ->
  addressable breaks ->
  Forall (compares_with q) breaks ->
  exists b0 bl,
    read breaks 0 = Done b0 /\
    read breaks (Z.of_nat (length breaks) - 1) = Done bl /\
    ((d_le q b0 = true /\ find_bin breaks q = Done 0) \/
     (d_le q b0 = false /\ d_le q bl = false /\
      find_bin breaks q = Done (Z.of_nat (length breaks) - 1)) \/
     (d_le q b0 = false /\ d_le q bl = true /\
      exists it : Z,
        find_bin breaks q = Done (it - 1) /\
        1 <= it <= Z.of_nat (length breaks) - 1 /\
        (exists lo, read breaks (it - 1) = Done lo /\ d_lt lo q = true) /\
        (exists hi, read breaks it = Done hi /\ d_le q hi = true))).
Proof.
  intros Hne Hfit Hcmp.
  assert (Hlen : 1 <= Z.of_nat (length breaks))
    by (destruct breaks; [congruence | simpl length; lia]).
  unfold addressable in Hfit.
  destruct (read_in_bounds breaks 0) as [b0 Hb0]; [lia |].
  destruct (read_in_bounds breaks (Z.of_nat (length breaks) - 1)) as [bl Hbl]; [lia |].
  destruct (Forall_read _ breaks _ b0 Hcmp Hb0) as [Hlt0 _].
  destruct (Forall_read _ breaks _ bl Hcmp Hbl) as [Hltl Hgtl].
  exists b0, bl. split; [exact Hb0 |]. split; [exact Hbl |].
  unfold find_bin. rewrite Hb0. simpl.
  destruct (d_le q b0) eqn:Hq0; [left; auto |].
  right. rewrite size_t_small by lia. rewrite Hbl. simpl.
  rewrite Hgtl, Hltl.
  destruct (d_le q bl) eqn:Hql; simpl; [right | left; auto].
  split; [reflexivity |]. split; [reflexivity |].
  unfold lower_bound.
  destruct (lower_bound_loop_local breaks q 0 (length breaks) ltac:(lia))
    as (r & Hr & Hrb & Hlow & Hhigh).
  rewrite Hr. simpl.
  assert (Hr1 : (1 <= r)%nat).
  { destruct r as [| r]; [exfalso | lia].
    destruct Hhigh as (m & Hm & Hf); [lia |].
    change (Z.of_nat 0) with 0 in Hm.
    replace m with b0 in Hf by congruence.
    rewrite Hlt0 in Hf. simpl in Hf. discriminate. }
  assert (Hr2 : Z.of_nat r <= Z.of_nat (length breaks) - 1).
  { destruct (Z_lt_le_dec (Z.of_nat (length breaks) - 1) (Z.of_nat r)) as [Hgt |]; [| lia].
    exfalso. destruct Hlow as (m & Hm & Ht); [lia |].
    replace (Z.of_nat r - 1) with (Z.of_nat (length breaks) - 1) in Hm by lia.
    replace m with bl in Ht by congruence.
    rewrite Hltl in Ht. simpl in Ht. discriminate. }
  exists (Z.of_nat r). rewrite size_t_small by lia.
  split; [reflexivity |]. split; [lia |]. split.
  - apply Hlow. lia.
  - destruct Hhigh as (hi & Hhi & Hf); [lia |].
    exists hi. split; [exact Hhi |].
    destruct (Forall_read _ breaks _ hi Hcmp Hhi) as [Hlth _].
    rewrite Hlth in Hf. apply negb_false_iff in Hf. exact Hf.
Qed.

Lemma find_bin_row_on_any_axis (breaks : list double) (q bl : double) :
  (2 <= length breaks)%nat ->
  addressable breaks ->
  Forall (compares_with q) breaks ->
  read breaks (Z.of_nat (length breaks) - 1) = Done bl ->
  d_le q bl = true ->
  exists i, find_bin breaks q = Done i /\ 0 <= i <= Z.of_nat (length breaks) - 2.
Proof.
  intros Hlen Hfit Hcmp Hbl Hq.
  assert (Hne : breaks <> []) by (destruct breaks; [simpl in Hlen; lia | congruence]).
  destruct (find_bin_local breaks q Hne Hfit Hcmp) as (b0 & bl' & Hb0 & Hbl' & Hcases).
  replace bl' with bl in * by congruence.
  destruct Hcases as [[_ Hf] | [(_ & Hql & _) | (_ & _ & it & Hf & Hit & _)]].
  - exists 0. split; [exact Hf | lia].
  - congruence.
  - exists (it - 1). split; [exact Hf | lia].
Qed.

(** X5: the lookup does not depend on the axis being ordered to stay inside
    it.  On an axis of [N >= 2] breaks in any order, each of which compares
    consistently with the query (no NaN among the breaks and the query),
    the selected index lies in [0, N-1], without wrapping around, and for a
    query [q <= Axis[N-1]] it is at most [N-2] and brackets the query as
    the specification asks: [i = 0] if [q <= Axis[0]], else
    [Axis[i] < q <= Axis[i+1]]. *)
Theorem lookup_brackets_query_on_any_axis
    (breaks : list double) (q bl : double) :
  (2 <= length breaks)%nat ->
  addressable breaks ->
  Forall (compares_with q) breaks ->
  read breaks (Z.of_nat (length breaks) - 1) = Done bl ->
  exists i,
    find_bin breaks q = Done i /\
    0 <= i <= Z.of_nat (length breaks) - 1 /\
    (d_le q bl = true ->
     i <= Z.of_nat (length breaks) - 2 /\ interval_spec breaks q i).
Proof.
  intros Hlen Hfit Hcmp Hbl.
  assert (Hne : breaks <> []) by (destruct breaks; [simpl in Hlen; lia | congruence]).
  destruct (find_bin_local breaks q Hne Hfit Hcmp) as (b0 & bl' & Hb0 & Hbl' & Hcases).
  replace bl' with bl in * by congruence.
  destruct Hcases as [[Hq0 Hf] | [(Hq0 & Hql & Hf) |
                      (Hq0 & Hql & it & Hf & Hit & (lo & Hlo & Hlt) & (hi & Hhi & Hle))]].
  - exists 0. split; [exact Hf |]. split; [lia |]. intros _. split; [lia |].
    exists b0. split; [exact Hb0 |]. rewrite Hq0. reflexivity.
  - eexists. split; [exact Hf |]. split; [lia |]. intros Hq. congruence.
  - exists (it - 1). split; [exact Hf |]. split; [lia |]. intros _. split; [lia |].
    exists b0. split; [exact Hb0 |]. rewrite Hq0.
    exists lo, hi. replace (it - 1 + 1) with it by lia. auto.
Qed.

(** X6: nor does memory safety depend on the axis being ordered.  With
    [N >= 2] breaks in any order, [O >= 1] and a coefficient buffer of
    [(N-1) * O] doubles, a batch of queries [q <= Axis[N-1]], each of which
    compares consistently with every break (no NaN among the breaks and the
    queries), is evaluated without any read out of bounds and yields one
    value per query. *)
Theorem batch_in_bounds_on_any_axis
    (breaks coefs xx : list double) (order : Z) (bl : double) :
  (2 <= length breaks)%nat ->
  1 <= order ->
  Z.of_nat (length coefs) = (Z.of_nat (length breaks) - 1) * order ->
  addressable breaks ->
  addressable coefs ->
  read breaks (Z.of_nat (length breaks) - 1) = Done bl ->
  Forall (fun q => d_le q bl = true /\ Forall (compares_with q) breaks) xx ->
  exists out,
    mexFunction breaks (Z.of_nat (length breaks) - 1) order coefs xx = Done out /\
    length out = length xx.
Proof.
  intros Hlen Hord Hcoefs Hfitb Hfit Hbl Hxx.
  rewrite mexFunction_checked; auto; try lia.
  destruct (evaluate_Forall2 breaks coefs (Z.of_nat (length breaks) - 1) order xx
              (fun _ _ => True)) as (out & Hout & Hall).
  - apply Forall_forall. intros q Hin. rewrite Forall_forall in Hxx.
    destruct (Hxx q Hin) as [Hq Hcmp].
    destruct (find_bin_row_on_any_axis breaks q bl Hlen Hfitb Hcmp Hbl Hq)
      as (i & Hfind & Hi).
    destruct (read_in_bounds breaks i) as [a Ha]; [lia |].
    destruct (read_in_bounds coefs i) as [c0 Hc0]; [nia |].
    destruct (horner_loop_total coefs (Z.of_nat (length breaks) - 1) order i
                (d_sub q a) ltac:(lia) Hcoefs Hfit (Z.to_nat (order - 1)) 1 c0)
      as [v Hv]; [lia | lia |].
    exists v. split; [| exact I].
    unfold eval_point. rewrite Hfind. simpl. rewrite Ha. simpl.
    rewrite Hc0. simpl. exact Hv.
  - exists out. split; [exact Hout |]. symmetry. eapply Forall2_length. exact Hall.
Qed.

End LookupConsistent.

Section LookupAnyAxisOrdered.

Import PpvalFastCore.

Context {double : Type} {ops : DoubleOps double} {ord : RealOrder double}.

(** X7: a query that lies exactly on an interior break [Axis[k]], with
    [Axis[k-1] < Axis[k]], is evaluated with the piece to its left,
    [k - 1]: the intervals are closed on the right. *)
Theorem query_on_break_selects_left_piece
    (breaks : list double) (k : Z) (lo q : double) :
  non_decreasingb breaks = true ->
  addressable breaks ->
  1 <= k ->
  read breaks (k - 1) = Done lo ->
  read breaks k = Done q ->
  d_lt lo q = true ->
  find_bin breaks q = Done (k - 1).
Proof.
  intros Hs Hfit Hk Hlo Hq Hlt.
  pose proof (read_Done _ _ _ Hq) as [Hkb _].
  assert (Hlen : (2 <= length breaks)%nat) by lia.
  destruct (read_in_bounds breaks (Z.of_nat (length breaks) - 1)) as [bl Hbl]; [lia |].
  assert (Hql : d_le q bl = true)
    by (apply (non_decreasingb_sorted breaks Hs k (Z.of_nat (length breaks) - 1));
        auto; lia).
  destruct (find_bin_inside breaks q bl Hs Hlen Hfit Hbl Hql) as (i & Hfind & _ & Hspec).
  rewrite Hfind. f_equal.
  apply (interval_spec_unique breaks q i (k - 1) Hs Hspec).
  destruct (read_in_bounds breaks 0) as [b0 Hb0]; [lia |].
  exists b0. split; [exact Hb0 |].
  assert (H0lo : d_le b0 lo = true)
    by (apply (non_decreasingb_sorted breaks Hs 0 (k - 1)); auto; lia).
  destruct (d_le q b0) eqn:Hq0.
  - exfalso. rewrite d_lt_le, (d_le_trans q b0 lo Hq0 H0lo) in Hlt. discriminate.
  - exists lo, q. replace (k - 1 + 1) with k by lia.
    split; [exact Hlo |]. split; [exact Hq |]. split; [exact Hlt | apply d_le_refl].
Qed.

(** X8: with [N >= 2] breaks, [O >= 1] and a coefficient buffer of
    [(N-1) * O] doubles, a query [q] in the batch for which [q <= Axis[0]]
    is false and [q > Axis[N-1]] is true makes the call read out of bounds,
    wherever it stands in the batch and whatever the other queries are. *)
Theorem one_query_beyond_axis_reads_out_of_bounds
    (breaks coefs xx : list double) (order : Z) (b0 bl : double) :
  (2 <= length breaks)%nat ->
  1 <= order ->
  Z.of_nat (length coefs) = (Z.of_nat (length breaks) - 1) * order ->
  addressable breaks ->
  addressable coefs ->
  read breaks 0 = Done b0 ->
  read breaks (Z.of_nat (length breaks) - 1) = Done bl ->
  Exists (fun q => d_le q b0 = false /\ d_gt q bl = true) xx ->
  mexFunction breaks (Z.of_nat (length breaks) - 1) order coefs xx = OutOfBounds.
Proof.
  intros Hlen Hord Hcoefs Hfitb Hfit Hb0 Hbl Hxx.
  rewrite mexFunction_checked; auto; try lia.
  apply evaluate_OutOfBounds.
  apply (Exists_impl (P := fun q => d_le q b0 = false /\ d_gt q bl = true));
    [| exact Hxx].
  intros q [Hq0 Hq]. unfold addressable in Hfitb.
  unfold eval_point, find_bin. rewrite Hb0. simpl. rewrite Hq0.
  rewrite size_t_small by lia. rewrite Hbl. simpl. rewrite Hq. simpl.
  rewrite Hbl. simpl.
  destruct (Z.eq_dec order 1) as [-> | Hord2].
  - rewrite read_beyond by lia. reflexivity.
  - destruct (read_in_bounds coefs (Z.of_nat (length breaks) - 1)) as [c0 Hc0]; [nia |].
    rewrite Hc0. simpl.
    apply (horner_loop_overrun coefs _ order); auto; lia.
Qed.

End LookupAnyAxisOrdered.

(** * The gateways *)

Section ResampleGateway.

Import NonUniformResample.

Context {double : Type} {ops : DoubleOps double}.

Lemma created_column_wf (m : Z) (complex : bool) (pr pi : list double) :
  0 <= m < SIZE_MAX ->
  Z.of_nat (length pr) = m ->
  Z.of_nat (length pi) = m ->
  mx_wf (mxCreateDoubleColumn m complex pr pi).
Proof.
  intros Hm Hpr Hpi. unfold mx_wf, mxCreateDoubleColumn. simpl.
  repeat split; try lia. intros ->. exact Hpi.
Qed.

(** X13: on well-formed arguments the resampling gateway never reads out of
    bounds.  It either stops with an error message, or it is given exactly
    three arguments and returns what the loop computes on their data: a
    well-formed column with one entry per element of [x_i], complex
    exactly when [y] is. *)
Theorem resample_gateway_is_memory_safe
    (mxMalloc : Z -> list double) (prhs : list (mxArray double)) :
  Forall mx_wf prhs ->
  allocator_ok mxMalloc ->
  (exists msg, NonUniformResampleGateway.mexFunction mxMalloc prhs = MexErr msg) \/
  (exists p0 p1 p2 yi,
     prhs = [p0; p1; p2] /\
     mexFunction (mxGetPr p0)
                 (combine (mxGetPr p1)
                          (if mxIsComplex p1 then mxGetPi p1
                           else mxMalloc (mxGetM p0)))
                 (mxGetPr p2) = Done yi /\
     NonUniformResampleGateway.mexFunction mxMalloc prhs
     = Done (mxCreateDoubleColumn (mxGetM p2) (mxIsComplex p1)
                                  (map fst yi) (map snd yi)) /\
     Z.of_nat (length yi) = mxGetM p2 /\
     mx_wf (mxCreateDoubleColumn (mxGetM p2) (mxIsComplex p1)
                                 (map fst yi) (map snd yi))).
Proof.
  intros Hwf Halloc.
  destruct prhs as [| p0 [| p1 [| p2 [| p3 rest]]]];
    try (left; eexists; reflexivity).
  inversion Hwf as [| ? ? Hw0 Hwf1]; subst.
  inversion Hwf1 as [| ? ? Hw1 Hwf2]; subst.
  inversion Hwf2 as [| ? ? Hw2 _]; subst.
  destruct Hw0 as (HM0 & _ & _ & _ & Hpr0 & _).
  destruct Hw1 as (HM1 & _ & _ & _ & Hpr1 & Hpi1 & _).
  destruct Hw2 as (HM2 & _ & _ & Hfit2 & Hpr2 & _ & Hlt2).
  unfold NonUniformResampleGateway.mexFunction.
  destruct (negb (mxIsDouble p0) || mxIsComplex p0
            || negb (mxGetNumberOfElements p0 =? mxGetM p0)) eqn:C0;
    [left; eexists; reflexivity |].
  destruct (negb (mxIsDouble p1)
            || negb (mxGetNumberOfElements p1 =? mxGetM p1)) eqn:C1;
    [left; eexists; reflexivity |].
  destruct (negb (mxGetM p0 =? mxGetM p1)) eqn:C01;
    [left; eexists; reflexivity |].
  destruct (negb (mxIsDouble p2) || mxIsComplex p2
            || negb (mxGetNumberOfElements p2 =? mxGetM p2)) eqn:C2;
    [left; eexists; reflexivity |].
  right.
  apply orb_false_iff in C0. destruct C0 as [_ C0].
  apply negb_false_iff, Z.eqb_eq in C0.
  apply orb_false_iff in C1. destruct C1 as [_ C1].
  apply negb_false_iff, Z.eqb_eq in C1.
  apply negb_false_iff, Z.eqb_eq in C01.
  apply orb_false_iff in C2. destruct C2 as [_ C2].
  apply negb_false_iff, Z.eqb_eq in C2.
  set (y_i := if mxIsComplex p1 then mxGetPi p1 else mxMalloc (mxGetM p0)).
  assert (Hyi : Z.of_nat (length y_i) = mxGetM p0).
  { unfold y_i. destruct (mxIsComplex p1) eqn:Hc.
    - rewrite (Hpi1 eq_refl). lia.
    - apply Halloc. exact HM0. }
  assert (Hlen : length (combine (mxGetPr p1) y_i) = length (mxGetPr p0))
    by (rewrite length_combine; lia).
  destruct (resample_total (mxGetPr p0) (combine (mxGetPr p1) y_i) (mxGetPr p2) 0 Hlen)
    as (yi & Hrun & Hl); [lia |].
  exists p0, p1, p2, yi. split; [reflexivity |].
  split; [rewrite (mexFunction_same_length _ _ _ Hlen); exact Hrun |].
  rewrite Hrun. simpl. unfold sample in *. split; [reflexivity |]. split; [lia |].
  unfold sample in *.
  apply created_column_wf; rewrite ?length_map; lia.
Qed.

Lemma resample_real_parts (x : list double) (y y' : list (sample double))
    (xi : list double) :
  length y = length x ->
  length y' = length x ->
  map fst y = map fst y' ->
  forall (c : Z) (out out' : list (sample double)),
    0 <= c <= Z.of_nat (length x) ->
    resample x y c xi = Done out ->
    resample x y' c xi = Done out' ->
    map fst out = map fst out'.
Proof.
  intros Hlen Hlen' Hfst.
  induction xi as [| q rest IH]; intros c out out' Hc Hrun Hrun'.
  - simpl in Hrun, Hrun'. injection Hrun as <-. injection Hrun' as <-. reflexivity.
  - simpl in Hrun, Hrun'.
    apply bind_Done in Hrun. destruct Hrun as ([c1 v1] & Hp & Hrun).
    apply bind_Done in Hrun. destruct Hrun as (o & Hrest & Hout).
    apply bind_Done in Hrun'. destruct Hrun' as ([c1' v1'] & Hp' & Hrun').
    apply bind_Done in Hrun'. destruct Hrun' as (o' & Hrest' & Hout').
    injection Hout as <-. injection Hout' as <-.
    pose proof (resample_point_cursor x y q c c1 v1 Hlen Hc Hp) as Hc1.
    unfold resample_point in Hp, Hp'.
    destruct (advance _ x q c) as [r | |]; simpl in Hp, Hp'; try discriminate.
    destruct (r =? 0).
    + injection Hp as <- <-. injection Hp' as <- <-.
      simpl. f_equal. exact (IH _ _ _ Hc1 Hrest Hrest').
    + apply bind_Done in Hp. destruct Hp as (w & Hw & Hp).
      apply bind_Done in Hp'. destruct Hp' as (w' & Hw' & Hp').
      injection Hp as <- <-. injection Hp' as <- <-.
      simpl. f_equal; [| exact (IH _ _ _ Hc1 Hrest Hrest')].
      apply read_Done in Hw. apply read_Done in Hw'.
      destruct Hw as [_ Hw]. destruct Hw' as [_ Hw'].
      apply (map_nth_error fst) in Hw. apply (map_nth_error fst) in Hw'.
      rewrite Hfst in Hw. congruence.
Qed.

Lemma map_fst_combine (A B : Type) (l : list A) : forall (l' : list B),
  length l = length l' -> map fst (combine l l') = l.
Proof.
  induction l as [| h t IH]; intros l' Hl; [reflexivity |].
  destruct l' as [| h' t']; [discriminate |].
  simpl. f_equal. apply IH. simpl in Hl. lia.
Qed.

(** X14: for a real [y] the result does not depend on what the scratch
    buffer that stands in for the imaginary part happens to contain. *)
Theorem real_result_ignores_scratch_content
    (mxMalloc mxMalloc' : Z -> list double) (p0 p1 p2 : mxArray double) :
  Forall mx_wf [p0; p1; p2] ->
  allocator_ok mxMalloc ->
  allocator_ok mxMalloc' ->
  mxIsComplex p1 = false ->
  NonUniformResampleGateway.mexFunction mxMalloc [p0; p1; p2]
  = NonUniformResampleGateway.mexFunction mxMalloc' [p0; p1; p2].
Proof.
  intros Hwf Ha Ha' Hreal.
  inversion Hwf as [| ? ? Hw0 Hwf1]; subst.
  inversion Hwf1 as [| ? ? Hw1 _]; subst.
  destruct Hw0 as (HM0 & _ & _ & _ & Hpr0 & _).
  destruct Hw1 as (_ & _ & _ & _ & Hpr1 & _).
  unfold NonUniformResampleGateway.mexFunction.
  destruct (negb (mxIsDouble p0) || mxIsComplex p0
            || negb (mxGetNumberOfElements p0 =? mxGetM p0)) eqn:C0;
    [reflexivity |].
  destruct (negb (mxIsDouble p1)
            || negb (mxGetNumberOfElements p1 =? mxGetM p1)) eqn:C1;
    [reflexivity |].
  destruct (negb (mxGetM p0 =? mxGetM p1)) eqn:C01; [reflexivity |].
  destruct (negb (mxIsDouble p2) || mxIsComplex p2
            || negb (mxGetNumberOfElements p2 =? mxGetM p2)); [reflexivity |].
  apply orb_false_iff in C0. destruct C0 as [_ C0].
  apply negb_false_iff, Z.eqb_eq in C0.
  apply orb_false_iff in C1. destruct C1 as [_ C1].
  apply negb_false_iff, Z.eqb_eq in C1.
  apply negb_false_iff, Z.eqb_eq in C01.
  rewrite Hreal.
  pose proof (Ha (mxGetM p0) HM0) as Hs. pose proof (Ha' (mxGetM p0) HM0) as Hs'.
  set (y := combine (mxGetPr p1) (mxMalloc (mxGetM p0))).
  set (y' := combine (mxGetPr p1) (mxMalloc' (mxGetM p0))).
  assert (Hlen : length y = length (mxGetPr p0))
    by (unfold y; rewrite length_combine; lia).
  assert (Hlen' : length y' = length (mxGetPr p0))
    by (unfold y'; rewrite length_combine; lia).
  assert (Hfst : map fst y = map fst y')
    by (unfold y, y'; rewrite !map_fst_combine by lia; reflexivity).
  destruct (resample_total (mxGetPr p0) y (mxGetPr p2) 0 Hlen) as (yi & Hrun & _); [lia |].
  destruct (resample_total (mxGetPr p0) y' (mxGetPr p2) 0 Hlen') as (yi' & Hrun' & _); [lia |].
  rewrite Hrun, Hrun'. simpl. unfold mxCreateDoubleColumn. do 2 f_equal.
  exact (resample_real_parts _ y y' _ Hlen Hlen' Hfst 0 yi yi' ltac:(lia) Hrun Hrun').
Qed.

End ResampleGateway.

Section PpvalGateway.

Import PpvalFastCore.

Context {double : Type} {ops : DoubleOps double}.

Lemma evaluate_length (breaks coefs : list double) (np order : Z)
    (xx : list double) : forall (out : list double),
  evaluate breaks coefs np order xx = Done out -> length out = length xx.
Proof.
  induction xx as [| q rest IH]; intros out Hrun; simpl in Hrun.
  - injection Hrun as <-. reflexivity.
  - apply bind_Done in Hrun. destruct Hrun as (v & _ & Hrun).
    apply bind_Done in Hrun. destruct Hrun as (o & Hrest & Hout).
    injection Hout as <-. simpl. f_equal. exact (IH o Hrest).
Qed.

(** X15: on well-formed arguments the evaluation gateway either stops with
    an error message, or it is given a real row of breaks, a real matrix of
    coefficients with one row less than there are breaks, and a real column
    of queries, and its outcome is the outcome of the checked loop on their
    data; a result is a well-formed real column with one value per
    query. *)
Theorem ppval_gateway_runs_the_checked_loop
    (prhs : list (mxArray double)) :
  Forall mx_wf prhs ->
  (exists msg, PpvalFastCoreGateway.mexFunction prhs = MexErr msg) \/
  (exists p0 p1 p2,
     prhs = [p0; p1; p2] /\
     Z.of_nat (length (mxGetPr p0)) = mxGetN p0 /\
     Z.of_nat (length (mxGetPr p1)) = mxGetM p1 * mxGetN p1 /\
     mxGetM p1 = mxGetN p0 - 1 /\
     Z.of_nat (length (mxGetPr p2)) = mxGetM p2 /\
     PpvalFastCoreGateway.mexFunction prhs
     = (v <- mexFunction (mxGetPr p0) (mxGetM p1) (mxGetN p1)
                         (mxGetPr p1) (mxGetPr p2) ;;
        Done (mxCreateDoubleColumn (mxGetM p2) false v [])) /\
     forall v,
       mexFunction (mxGetPr p0) (mxGetM p1) (mxGetN p1)
                   (mxGetPr p1) (mxGetPr p2) = Done v ->
       Z.of_nat (length v) = mxGetM p2 /\
       mx_wf (mxCreateDoubleColumn (mxGetM p2) false v [])).
Proof.
  intros Hwf.
  destruct prhs as [| p0 [| p1 [| p2 [| p3 rest]]]];
    try (left; eexists; reflexivity).
  inversion Hwf as [| ? ? Hw0 Hwf1]; subst.
  inversion Hwf1 as [| ? ? Hw1 Hwf2]; subst.
  inversion Hwf2 as [| ? ? Hw2 _]; subst.
  destruct Hw0 as (_ & HN0 & _ & Hfit0 & Hpr0 & _).
  destruct Hw1 as (HM1 & HN1 & Hcount1 & Hfit1 & Hpr1 & _ & Hlt1).
  destruct Hw2 as (HM2 & _ & _ & Hfit2 & Hpr2 & _ & Hlt2).
  unfold PpvalFastCoreGateway.mexFunction.
  destruct (negb (mxIsDouble p0) || mxIsComplex p0
            || negb (mxGetNumberOfElements p0 =? mxGetN p0)) eqn:C0;
    [left; eexists; reflexivity |].
  destruct (negb (mxIsDouble p1) || mxIsComplex p1
            || negb (mxGetNumberOfElements p1
                     =? size_t (mxGetM p1 * mxGetN p1))) eqn:C1;
    [left; eexists; reflexivity |].
  destruct (negb (mxGetM p1 =? size_t (mxGetN p0 - 1))) eqn:C01;
    [left; eexists; reflexivity |].
  destruct (negb (mxIsDouble p2) || mxIsComplex p2
            || negb (mxGetNumberOfElements p2 =? mxGetM p2)) eqn:C2;
    [left; eexists; reflexivity |].
  right.
  apply orb_false_iff in C0. destruct C0 as [_ C0].
  apply negb_false_iff, Z.eqb_eq in C0.
  apply orb_false_iff in C1. destruct C1 as [_ C1].
  apply negb_false_iff in C1. pose proof C1 as C1b. apply Z.eqb_eq in C1.
  apply negb_false_iff in C01. pose proof C01 as C01b. apply Z.eqb_eq in C01.
  apply orb_false_iff in C2. destruct C2 as [_ C2].
  apply negb_false_iff, Z.eqb_eq in C2.
  assert (Hbreaks : mxGetM p1 = mxGetN p0 - 1).
  { destruct (Z.eq_dec (mxGetN p0) 0) as [H0 | Hpos].
    - exfalso. rewrite H0 in C01. change (size_t (0 - 1)) with SIZE_MAX in C01.
      lia.
    - rewrite size_t_small in C01 by lia. exact C01. }
  exists p0, p1, p2.
  split; [reflexivity |]. split; [lia |]. split; [lia |].
  split; [exact Hbreaks |]. split; [lia |].
  assert (Hkernel : mexFunction (mxGetPr p0) (mxGetM p1) (mxGetN p1)
                                (mxGetPr p1) (mxGetPr p2)
                    = evaluate (mxGetPr p0) (mxGetPr p1) (mxGetM p1) (mxGetN p1)
                               (mxGetPr p2)).
  { unfold mexFunction. rewrite Hpr1, C1b. rewrite Hpr0, C0, C01b. reflexivity. }
  rewrite Hkernel. split; [reflexivity |].
  intros v Hv. apply evaluate_length in Hv.
  split; [lia |].
  unfold mx_wf, mxCreateDoubleColumn. simpl.
  repeat split; try lia; try discriminate.
Qed.

End PpvalGateway.

Section PpvalGatewayShapes.

Context {double : Type} {ops : DoubleOps double}.

(** X16: the evaluation gateway wants its breaks as a row and its queries
    as a column.  Breaks with two or more rows (and a column at least), or
    queries with a row at least and a number of columns other than one, are
    answered with an error message and nothing is evaluated. *)
Theorem ppval_gateway_rejects_column_breaks_and_row_queries
    (p0 p1 p2 : mxArray double) :
  Forall mx_wf [p0; p1; p2] ->
  (2 <= mxGetM p0 /\ 1 <= mxGetN p0) \/ (1 <= mxGetM p2 /\ mxGetN p2 <> 1) ->
  exists msg, PpvalFastCoreGateway.mexFunction [p0; p1; p2] = MexErr msg.
Proof.
  intros Hwf Hshape.
  inversion Hwf as [| ? ? Hw0 Hwf1]; subst.
  inversion Hwf1 as [| ? ? _ Hwf2]; subst.
  inversion Hwf2 as [| ? ? Hw2 _]; subst.
  destruct Hw0 as (_ & _ & Hcount0 & _).
  destruct Hw2 as (_ & HN2 & Hcount2 & _).
  unfold PpvalFastCoreGateway.mexFunction.
  destruct (negb (mxIsDouble p0) || mxIsComplex p0
            || negb (mxGetNumberOfElements p0 =? mxGetN p0)) eqn:C0;
    [eexists; reflexivity |].
  destruct (negb (mxIsDouble p1) || mxIsComplex p1
            || negb (mxGetNumberOfElements p1
                     =? size_t (mxGetM p1 * mxGetN p1)));
    [eexists; reflexivity |].
  destruct (negb (mxGetM p1 =? size_t (mxGetN p0 - 1)));
    [eexists; reflexivity |].
  destruct (negb (mxIsDouble p2) || mxIsComplex p2
            || negb (mxGetNumberOfElements p2 =? mxGetM p2)) eqn:C2;
    [eexists; reflexivity |].
  exfalso.
  apply orb_false_iff in C0. destruct C0 as [_ C0].
  apply negb_false_iff, Z.eqb_eq in C0.
  apply orb_false_iff in C2. destruct C2 as [_ C2].
  apply negb_false_iff, Z.eqb_eq in C2.
  destruct Hshape as [[HM0 HN0] | [HM2 Hne2]]; nia.
Qed.

End PpvalGatewayShapes.

(** * The further properties at concrete inputs *)

Ltac all_entries := repeat constructor.

(** The ordered batch [-1, 0, 1/2, 2, 5] and the batch [nan] on the axis
    [0, 1, 2], in binary64. *)
Lemma step_resampler_ordered_queries_at_scenario :
  (exists out,
     NonUniformResample.mexFunction axis_f samples_f [-1; 0; 0.5; 2; 5]%float = Done out /\
     length out = length [-1; 0; 0.5; 2; 5]%float /\
     forall i q, nth_error [-1; 0; 0.5; 2; 5]%float i = Some q ->
       ((forall k a, read axis_f k = Done a -> d_le a q = false) ->
        nth_error out i = Some (0, 0)%float) /\
       ((exists k a, read axis_f k = Done a /\ d_le a q = true) ->
        exists j v, NonUniformResample.greatest_le axis_f q j /\
                    read samples_f j = Done v /\ nth_error out i = Some v) /\
       ((forall k a, read axis_f k = Done a -> d_lt q a = negb (d_le a q)) ->
        (NonUniformResample.before_all axis_f q ->
         nth_error out i = Some (0, 0)%float) /\
        (~ NonUniformResample.before_all axis_f q ->
         exists j v, NonUniformResample.greatest_le axis_f q j /\
                     read samples_f j = Done v /\ nth_error out i = Some v))) /\
  (exists out,
     NonUniformResample.mexFunction axis_f samples_f [nan] = Done out /\
     length out = length [nan] /\
     forall i q, nth_error [nan] i = Some q ->
       ((forall k a, read axis_f k = Done a -> d_le a q = false) ->
        nth_error out i = Some (0, 0)%float) /\
       ((exists k a, read axis_f k = Done a /\ d_le a q = true) ->
        exists j v, NonUniformResample.greatest_le axis_f q j /\
                    read samples_f j = Done v /\ nth_error out i = Some v) /\
       ((forall k a, read axis_f k = Done a -> d_lt q a = negb (d_le a q)) ->
        (NonUniformResample.before_all axis_f q ->
         nth_error out i = Some (0, 0)%float) /\
        (~ NonUniformResample.before_all axis_f q ->
         exists j v, NonUniformResample.greatest_le axis_f q j /\
                     read samples_f j = Done v /\ nth_error out i = Some v))).
Proof.
  split.
  - apply (@step_resampler_ordered_queries float float_ops
             axis_f samples_f [-1; 0; 0.5; 2; 5]%float).
    + reflexivity.
    + reflexivity.
    + reflexivity.
    + vm_compute. reflexivity.
  - apply (@step_resampler_ordered_queries float float_ops
             axis_f samples_f [nan]).
    + reflexivity.
    + reflexivity.
    + reflexivity.
    + vm_compute. reflexivity.
Defined.

(** Query 7 at position 2 of the unordered batch [5, 0, 7]. *)
Lemma query_above_axis_copies_last_sample_at_scenario :
  exists out v,
    NonUniformResample.mexFunction axis_f samples_f [5; 0; 7]%float = Done out /\
    read samples_f (Z.of_nat (length axis_f) - 1) = Done v /\
    nth_error out 2 = Some v.
Proof.
  apply (@query_above_axis_copies_last_sample float float_ops
           axis_f samples_f [5; 0; 7]%float 2%nat 7%float).
  - discriminate.
  - reflexivity.
  - reflexivity.
  - all_entries.
Defined.

(** A NaN and a query before the axis. *)
Lemma unreachable_queries_give_zeros_at_scenario :
  NonUniformResample.mexFunction axis_f samples_f [nan; -1]%float
  = Done (repeat (0, 0)%float (length [nan; -1]%float)).
Proof.
  apply (@unreachable_queries_give_zeros float float_ops
           axis_f samples_f [nan; -1]%float).
  - reflexivity.
  - all_entries.
Defined.

(** The batch [5, -1, -1, -1, -1] on the axis [0, 1, 2]. *)
Lemma decreasing_queries_replay_samples_backwards_at_scenario :
  exists out,
    NonUniformResample.mexFunction axis_f samples_f
      (5 :: [-1; -1; -1; -1])%float = Done out /\
    length out = S (length [-1; -1; -1; -1]%float) /\
    forall i v, nth_error out i = Some v ->
      (Z.of_nat i < Z.of_nat (length axis_f) ->
       read samples_f (Z.of_nat (length axis_f) - 1 - Z.of_nat i) = Done v) /\
      (Z.of_nat (length axis_f) <= Z.of_nat i -> v = (0, 0)%float).
Proof.
  apply (@decreasing_queries_replay_samples_backwards float float_ops
           axis_f samples_f 5%float [-1; -1; -1; -1]%float).
  - discriminate.
  - reflexivity.
  - all_entries.
  - all_entries.
Defined.

(** The query 1/2, and a NaN, met with the cursor at 2, in binary64. *)
Lemma loop_body_takes_later_of_target_and_cursor_at_scenario :
  (exists c' v,
     NonUniformResample.resample_point axis_f samples_f 2 0.5%float
       = Done (c', v) /\
     (((forall k a, read axis_f k = Done a -> d_le a 0.5%float = false) /\
       c' = Z.max 0 (2 - 1) /\
       ((2 = 0 /\ v = (0, 0)%float) \/ (0 < 2 /\ read samples_f c' = Done v))) \/
      (exists j, NonUniformResample.greatest_le axis_f 0.5%float j /\
                 c' = Z.max j (2 - 1) /\ read samples_f c' = Done v))) /\
  (exists c' v,
     NonUniformResample.resample_point axis_f samples_f 2 nan = Done (c', v) /\
     (((forall k a, read axis_f k = Done a -> d_le a nan = false) /\
       c' = Z.max 0 (2 - 1) /\
       ((2 = 0 /\ v = (0, 0)%float) \/ (0 < 2 /\ read samples_f c' = Done v))) \/
      (exists j, NonUniformResample.greatest_le axis_f nan j /\
                 c' = Z.max j (2 - 1) /\ read samples_f c' = Done v))).
Proof.
  split.
  - apply (@loop_body_takes_later_of_target_and_cursor float float_ops
             axis_f samples_f 0.5%float 2).
    + reflexivity.
    + reflexivity.
    + simpl. lia.
    + vm_compute. reflexivity.
  - apply (@loop_body_takes_later_of_target_and_cursor float float_ops
             axis_f samples_f nan 2).
    + reflexivity.
    + reflexivity.
    + simpl. lia.
    + vm_compute. reflexivity.
Defined.

Ltac all_compare :=
  repeat (apply Forall_cons; [split; reflexivity |]); apply Forall_nil.

(** The query 1 on the unordered axis [0, 3, 1, 2], in binary64. *)
Lemma lookup_brackets_query_on_any_axis_at_scenario :
  exists i,
    PpvalFastCore.find_bin [0; 3; 1; 2]%float 1%float = Done i /\
    0 <= i <= Z.of_nat (length [0; 3; 1; 2]%float) - 1 /\
    (d_le 1%float 2%float = true ->
     i <= Z.of_nat (length [0; 3; 1; 2]%float) - 2 /\
     PpvalFastCore.interval_spec [0; 3; 1; 2]%float 1%float i).
Proof.
  apply (@lookup_brackets_query_on_any_axis float float_ops
           [0; 3; 1; 2]%float 1%float 2%float).
  - simpl. lia.
  - unfold addressable, SIZE_MAX. simpl. lia.
  - all_compare.
  - reflexivity.
Defined.

(** The queries [1, 2] on the unordered axis [0, 3, 2], in binary64. *)
Lemma batch_in_bounds_on_any_axis_at_scenario :
  exists out,
    PpvalFastCore.mexFunction [0; 3; 2]%float
      (Z.of_nat (length [0; 3; 2]%float) - 1) 2
      (PpvalFastCore.col_major table_f 2) [1; 2]%float = Done out /\
    length out = length [1; 2]%float.
Proof.
  apply (@batch_in_bounds_on_any_axis float float_ops
           [0; 3; 2]%float (PpvalFastCore.col_major table_f 2) [1; 2]%float
           2 2%float).
  - simpl. lia.
  - lia.
  - reflexivity.
  - unfold addressable, SIZE_MAX. simpl. lia.
  - unfold addressable, SIZE_MAX. simpl. lia.
  - reflexivity.
  - repeat (apply Forall_cons; [split; [reflexivity | all_compare] |]).
    apply Forall_nil.
Defined.

(** The query 1 on the break [Axis[1] = 1]. *)
Lemma query_on_break_selects_left_piece_at_scenario :
  PpvalFastCore.find_bin axis_q 1%Q = Done (1 - 1).
Proof.
  apply (query_on_break_selects_left_piece (ord := Q_real_order) axis_q 1 0%Q 1%Q).
  - reflexivity.
  - unfold addressable, SIZE_MAX. simpl. lia.
  - lia.
  - reflexivity.
  - reflexivity.
  - reflexivity.
Defined.

(** The batch [0, 5, nan]: its second query lies beyond the last break;
    in binary64. *)
Lemma one_query_beyond_axis_reads_out_of_bounds_at_scenario :
  PpvalFastCore.mexFunction axis_f (Z.of_nat (length axis_f) - 1) 2
    (PpvalFastCore.col_major table_f 2) [0; 5; nan]%float = OutOfBounds.
Proof.
  apply (@one_query_beyond_axis_reads_out_of_bounds float float_ops
           axis_f (PpvalFastCore.col_major table_f 2) [0; 5; nan]%float
           2 0%float 2%float).
  - simpl. lia.
  - lia.
  - reflexivity.
  - unfold addressable, SIZE_MAX. simpl. lia.
  - unfold addressable, SIZE_MAX. simpl. lia.
  - reflexivity.
  - reflexivity.
  - apply Exists_cons_tl. apply Exists_cons_hd. split; reflexivity.
Defined.

(** A NaN query on the axis [0, 1, 2], in binary64. *)
Lemma unordered_query_wraps_the_lookup_at_scenario :
  PpvalFastCore.find_bin axis_f nan = Done SIZE_MAX /\
  forall coefs np order,
    PpvalFastCore.eval_point axis_f coefs np order nan = OutOfBounds.
Proof.
  apply (@unordered_query_wraps_the_lookup float float_ops axis_f nan).
  - discriminate.
  - unfold addressable, SIZE_MAX. simpl. lia.
  - all_entries.
Defined.

(** Three breaks and a 2-by-0 coefficient matrix. *)
Lemma empty_coefficient_matrix_reads_out_of_bounds_at_scenario :
  PpvalFastCore.mexFunction axis_f (Z.of_nat (length axis_f) - 1) 0 []
    (1 :: [])%float = OutOfBounds.
Proof.
  apply (@empty_coefficient_matrix_reads_out_of_bounds float float_ops
           axis_f 0 1%float []).
  - discriminate.
  - unfold addressable, SIZE_MAX. simpl. lia.
  - reflexivity.
Defined.

(** No breaks and no polynomial. *)
Lemma empty_breaks_are_rejected_at_scenario :
  exists msg,
    PpvalFastCore.mexFunction (@nil float) 0 2 [] [1]%float = MexErr msg.
Proof.
  apply (@empty_breaks_are_rejected float float_ops 0 2 [] [1]%float).
  unfold SIZE_MAX. lia.
Defined.

Ltac mx_wf_ok :=
  unfold mx_wf, SIZE_MAX; simpl; repeat split; try lia; try discriminate.

Ltac all_mx_wf :=
  repeat (apply Forall_cons; [mx_wf_ok |]); apply Forall_nil.

Ltac filled_ok :=
  let n := fresh "n" in
  let Hn := fresh "Hn" in
  intros n Hn; unfold filled; rewrite repeat_length; lia.

(** A real [y] of three samples resampled at two points. *)
Lemma resample_gateway_is_memory_safe_at_scenario :
  (exists msg,
     NonUniformResampleGateway.mexFunction (filled 0%float)
       [mx_real 3 1 axis_f; mx_real 3 1 [1; 2; 3]%float;
        mx_real 2 1 [0.5; 5]%float] = MexErr msg) \/
  (exists p0 p1 p2 yi,
     [mx_real 3 1 axis_f; mx_real 3 1 [1; 2; 3]%float;
      mx_real 2 1 [0.5; 5]%float] = [p0; p1; p2] /\
     NonUniformResample.mexFunction (mxGetPr p0)
       (combine (mxGetPr p1)
                (if mxIsComplex p1 then mxGetPi p1
                 else filled 0%float (mxGetM p0)))
       (mxGetPr p2) = Done yi /\
     NonUniformResampleGateway.mexFunction (filled 0%float)
       [mx_real 3 1 axis_f; mx_real 3 1 [1; 2; 3]%float;
        mx_real 2 1 [0.5; 5]%float]
     = Done (mxCreateDoubleColumn (mxGetM p2) (mxIsComplex p1)
                                  (map fst yi) (map snd yi)) /\
     Z.of_nat (length yi) = mxGetM p2 /\
     mx_wf (mxCreateDoubleColumn (mxGetM p2) (mxIsComplex p1)
                                 (map fst yi) (map snd yi))).
Proof.
  apply (@resample_gateway_is_memory_safe float float_ops (filled 0%float)).
  - all_mx_wf.
  - filled_ok.
Defined.

(** The same call with scratch buffers filled with 0 and with 1. *)
Lemma real_result_ignores_scratch_content_at_scenario :
  NonUniformResampleGateway.mexFunction (filled 0%float)
    [mx_real 3 1 axis_f; mx_real 3 1 [1; 2; 3]%float; mx_real 2 1 [0.5; 5]%float]
  = NonUniformResampleGateway.mexFunction (filled 1%float)
    [mx_real 3 1 axis_f; mx_real 3 1 [1; 2; 3]%float; mx_real 2 1 [0.5; 5]%float].
Proof.
  apply (@real_result_ignores_scratch_content float float_ops).
  - all_mx_wf.
  - filled_ok.
  - filled_ok.
  - reflexivity.
Defined.

(** A row of three breaks, the 2-by-2 table and a column of two queries. *)
Lemma ppval_gateway_runs_the_checked_loop_at_scenario :
  (exists msg,
     PpvalFastCoreGateway.mexFunction
       [mx_real 1 3 axis_f; mx_real 2 2 (PpvalFastCore.col_major table_f 2);
        mx_real 2 1 [0.5; 1.5]%float] = MexErr msg) \/
  (exists p0 p1 p2,
     [mx_real 1 3 axis_f; mx_real 2 2 (PpvalFastCore.col_major table_f 2);
      mx_real 2 1 [0.5; 1.5]%float] = [p0; p1; p2] /\
     Z.of_nat (length (mxGetPr p0)) = mxGetN p0 /\
     Z.of_nat (length (mxGetPr p1)) = mxGetM p1 * mxGetN p1 /\
     mxGetM p1 = mxGetN p0 - 1 /\
     Z.of_nat (length (mxGetPr p2)) = mxGetM p2 /\
     PpvalFastCoreGateway.mexFunction
       [mx_real 1 3 axis_f; mx_real 2 2 (PpvalFastCore.col_major table_f 2);
        mx_real 2 1 [0.5; 1.5]%float]
     = (v <- PpvalFastCore.mexFunction (mxGetPr p0) (mxGetM p1) (mxGetN p1)
                                       (mxGetPr p1) (mxGetPr p2) ;;
        Done (mxCreateDoubleColumn (mxGetM p2) false v [])) /\
     forall v,
       PpvalFastCore.mexFunction (mxGetPr p0) (mxGetM p1) (mxGetN p1)
                                 (mxGetPr p1) (mxGetPr p2) = Done v ->
       Z.of_nat (length v) = mxGetM p2 /\
       mx_wf (mxCreateDoubleColumn (mxGetM p2) false v [])).
Proof.
  apply (@ppval_gateway_runs_the_checked_loop float float_ops).
  all_mx_wf.
Defined.

(** Breaks passed as a column of three. *)
Lemma ppval_gateway_rejects_column_breaks_and_row_queries_at_scenario :
  exists msg,
    PpvalFastCoreGateway.mexFunction
      [mx_real 3 1 axis_f; mx_real 2 2 (PpvalFastCore.col_major table_f 2);
       mx_real 2 1 [0.5; 1.5]%float] = MexErr msg.
Proof.
  apply (@ppval_gateway_rejects_column_breaks_and_row_queries float float_ops).
  - all_mx_wf.
  - left. simpl. lia.
Defined.
